(** * NBA player statistics pipeline: scraper, store, efficiency rating

    A shallow embedding of [main.py]: the header sanitizer and row extractor of
    [scrape_nba_player_data], the store built by [create_nba_database], the
    rating computed and written back by [PER_calculator], and the rankings
    of [print_top_players] and [print_top_players_by_team].

    Conventions.
    - Python text is a [string] whose characters are the code points 0..255,
      classified as Python classifies them ([str.isdigit], [str.isspace],
      the [\w] class of [re]).
    - Python floats are binary64, the kernel's primitive [float]; the only
      float operation of the program that can raise is the division.
    - An unhandled Python exception is a [Fault]; a computation that touches
      the store returns the store as the open connection sees it together
      with the outcome (commit and rollback are not modelled).
    - The page is given as BeautifulSoup presents it: the rows of the table
      [per_game_stats], each with its header and data cells in order.
    - A statement whose text is built from the headers is read with each
      header as one word of it, which is what a header returned by the scrape
      is; SQLite's reserved words among them are rejected as it rejects
      them. *)

From Stdlib Require Import ZArith NArith Ascii String List Bool Floats Lia.
From stdpp Require Import base option list gmap strings sorting.

(** ** Python runtime *)

Inductive fault : Set :=
  | IndexError | ValueError | TypeError | ZeroDivisionError
  | AttributeError | OperationalError | IntegrityError.

Inductive result (A : Type) : Type :=
  | Ok (a : A)
  | Fault (e : fault).
Arguments Ok {A} a.
Arguments Fault {A} e.

#[global] Instance result_ret : MRet result := @Ok.
#[global] Instance result_bind : MBind result :=
  λ A B f m, match m with Ok a => f a | Fault e => Fault e end.

Definition is_ok {A} (r : result A) : bool :=
  match r with Ok _ => true | Fault _ => false end.

Module Text.

Definition code (c : ascii) : N := N_of_ascii c.

Definition between (lo hi n : N) : bool := ((lo <=? n) && (n <=? hi))%N.

(** [str.isdigit] on one character. *)
Definition isdigit (c : ascii) : bool :=
  let n := code c in
  between 48 57 n || between 178 179 n || (n =? 185)%N.

(** [str.isspace] on one character: what [str.strip()] removes. *)
Definition isspace (c : ascii) : bool :=
  let n := code c in
  between 9 13 n || between 28 32 n || (n =? 133)%N || (n =? 160)%N.

(** The class [\w] of [re] on a [str] pattern: alphanumerics and [_]. *)
Definition isword (c : ascii) : bool :=
  let n := code c in
  between 48 57 n || between 65 90 n || (n =? 95)%N || between 97 122 n
  || (n =? 170)%N || between 178 179 n || (n =? 181)%N || between 185 186 n
  || between 188 190 n || between 192 214 n || between 216 246 n
  || between 248 255 n.

Fixpoint lstrip (s : string) : string :=
  match s with
  | String c s' => if isspace c then lstrip s' else s
  | EmptyString => EmptyString
  end.

Fixpoint rstrip (s : string) : string :=
  match s with
  | String c s' =>
      match rstrip s' with
      | EmptyString => if isspace c then EmptyString else String c EmptyString
      | r => String c r
      end
  | EmptyString => EmptyString
  end.

(** [s.strip()] *)
Definition strip (s : string) : string := rstrip (lstrip s).

(** [s.replace("%", "Pct")] *)
Fixpoint replace_percent (s : string) : string :=
  match s with
  | String c s' =>
      if Ascii.eqb c "%" then String "P" (String "c" (String "t" (replace_percent s')))
      else String c (replace_percent s')
  | EmptyString => EmptyString
  end.

(** [re.sub(r'\W+', '', s)]: every run of non-word characters is deleted. *)
Fixpoint sub_nonword (s : string) : string :=
  match s with
  | String c s' => if isword c then String c (sub_nonword s') else sub_nonword s'
  | EmptyString => EmptyString
  end.

(** ASCII case folding, as SQLite compares identifiers. *)
Definition lower (c : ascii) : ascii :=
  if between 65 90 (code c) then ascii_of_N (code c + 32) else c.

Fixpoint casefold (s : string) : string :=
  match s with
  | String c s' => String (lower c) (casefold s')
  | EmptyString => EmptyString
  end.

Fixpoint all_chars (p : ascii → bool) (s : string) : bool :=
  match s with
  | String c s' => p c && all_chars p s'
  | EmptyString => true
  end.

End Text.

(** ** The parsed page *)

Inductive cell : Set :=
  | th (text : string)
  | td (text : string).

(** A table row: its cells in document order. *)
Definition tr : Set := list cell.

(** [soup.find("table", {"id": "per_game_stats"})]: the rows of the statistics
    table, or [None] when the page has no such table. *)
Record soup : Set := { per_game_stats : option (list tr) }.

(** [[c.getText() for c in row.findAll("th")]] *)
Definition findAll_th (row : tr) : list string :=
  omap (λ c, match c with th s => Some s | td _ => None end) row.

(** [[c.getText() for c in row.findAll("td")]] *)
Definition findAll_td (row : tr) : list string :=
  omap (λ c, match c with td s => Some s | th _ => None end) row.

(** ** scrape_nba_player_data *)

(** Line 34, per header cell: [th.getText().strip().replace("%", "Pct")]. *)
Definition header_text (raw : string) : string :=
  Text.replace_percent (Text.strip raw).

(** Lines 39-41, the body of the sanitizing loop.  [sanitized_header[0]] is an
    index into the string left by [re.sub]. *)
Definition sanitize_header (header : string) : result string :=
  let sanitized_header := Text.sub_nonword header in
  match sanitized_header with
  | EmptyString => Fault IndexError
  | String c _ =>
      if Text.isdigit c then Ok (String "_" sanitized_header)
      else Ok sanitized_header
  end.

(** Header sanitization of one raw header label: lines 34 and 39-41. *)
Definition header_sanitization (raw : string) : result string :=
  sanitize_header (header_text raw).

Definition scrape_nba_player_data (page : soup)
  : result (list string * list (list string)) :=
  match per_game_stats page with
  | None => Fault AttributeError
  | Some table =>
      match take 2 table with
      | [] => Fault IndexError
      | first :: _ =>
          let headers := header_text <$> findAll_th first in
          let headers := drop 1 headers in
          sanitized_headers ← mapM sanitize_header headers;
          let rows := drop 1 table in
          let player_data := findAll_td <$> rows in
          Ok (sanitized_headers, player_data)
      end
  end.

(** ** The store: one SQLite file per season *)

(** What a cell holds, and what [fetchall] hands to Python for it:
    [None], a [str] or a [float]. *)
Inductive value : Set :=
  | VNull
  | VText (s : string)
  | VReal (f : float).

(** Column affinity of the two declared types the program uses. *)
Inductive affinity : Set := TEXT | REAL.

Record table : Set := {
  columns : list (string * affinity);
  primary_key : list nat;            (* positions of the key columns *)
  rows : list (list value)
}.

(** A database file: the [players] table, when the file has one. *)
Definition database : Set := option table.

(** The working directory: the file [nba_database_<year>.db] of each season
    that has one. *)
Abbreviation files := (gmap Z database).

Module Sqlite.

(** Identifiers are compared without regard to ASCII case. *)
Definition same_name (a b : string) : bool :=
  String.eqb (Text.casefold a) (Text.casefold b).

Fixpoint column_index (name : string) (cols : list (string * affinity))
  : option nat :=
  match cols with
  | [] => None
  | (c, _) :: rest =>
      if same_name c name then Some 0%nat else S <$> column_index name rest
  end.

(** Resolution of a column name in a statement: no such column is an
    [OperationalError]. *)
Definition resolve (name : string) (t : table) : result nat :=
  match column_index name (columns t) with
  | Some i => Ok i
  | None => Fault OperationalError
  end.

Definition item (r : list value) (i : nat) : value := default VNull (r !! i).

Fixpoint distinct_names (names : list string) : bool :=
  match names with
  | [] => true
  | n :: rest => negb (existsb (same_name n) rest) && distinct_names rest
  end.

(** [col = ?] under the default collation: text is equal to the same text,
    a real to the same real, [NULL] to nothing. *)
Definition eq_value (stored bound : value) : bool :=
  match stored, bound with
  | VText a, VText b => String.eqb a b
  | VReal a, VReal b => PrimFloat.eqb a b
  | _, _ => false
  end.

(** [x >= y]: [NULL] compares to nothing, a real sorts before any text,
    text is ordered character by character. *)
Definition ge_value (x y : value) : bool :=
  match x, y with
  | VNull, _ | _, VNull => false
  | VReal a, VReal b => PrimFloat.leb b a
  | VReal _, VText _ => false
  | VText _, VReal _ => true
  | VText a, VText b => String.leb b a
  end.

(** The integer literal [50] compared with a column: a column of TEXT
    affinity turns the literal into text, a REAL one keeps it a number. *)
Definition literal_50 (a : affinity) : value :=
  match a with
  | TEXT => VText "50"
  | REAL => VReal 50%float
  end.

(** A [float] bound to a statement; SQLite stores a NaN as [NULL]. *)
Definition bind_float (f : float) : value :=
  if PrimFloat.eqb f f then VReal f else VNull.

(** The words that SQLite (3.40) takes for nothing but a keyword: as the
    name of a column they are a syntax error.  Its other keywords (KEY, ROW,
    LEFT, ...) stand for a name where one is expected. *)
Definition reserved_words : list string :=
  ["add"; "all"; "alter"; "and"; "as"; "autoincrement"; "between"; "case";
   "check"; "collate"; "commit"; "constraint"; "create"; "default";
   "deferrable"; "delete"; "distinct"; "drop"; "else"; "escape"; "except";
   "exists"; "foreign"; "from"; "group"; "having"; "in"; "index"; "insert";
   "intersect"; "into"; "is"; "isnull"; "join"; "limit"; "not"; "nothing";
   "notnull"; "null"; "on"; "or"; "order"; "primary"; "references";
   "returning"; "select"; "set"; "table"; "then"; "to"; "transaction";
   "union"; "unique"; "update"; "using"; "values"; "when"; "where"].

(** Keywords are recognised without regard to case. *)
Definition reserved (name : string) : bool :=
  existsb (same_name name) reserved_words.

(** [CREATE TABLE players (...)] in a file that has no such table: no column
    name is a reserved word, and the column names differ.  Each name is one
    word of the statement's text; quoting is not modelled. *)
Definition create_table (cols : list (string * affinity)) (key : list string)
  : result table :=
  if forallb (λ name, negb (reserved name)) cols.*1 && distinct_names cols.*1 then
    pk ← mapM (λ k, match column_index k cols with
                    | Some i => Ok i
                    | None => Fault OperationalError
                    end) key;
    Ok {| columns := cols; primary_key := pk; rows := [] |}
  else Fault OperationalError.

Definition agree_on (ixs : list nat) (r r' : list value) : bool :=
  forallb (λ i, eq_value (item r i) (item r' i)) ixs.

(** [INSERT INTO players (<every column, in order>) VALUES (?, ..., ?)]:
    as many values as columns, and no stored row with the same key. *)
Definition insert (r : list value) (t : table) : result table :=
  if negb (length r =? length (columns t))%nat then Fault OperationalError
  else if existsb (agree_on (primary_key t) r) (rows t) then Fault IntegrityError
  else Ok {| columns := columns t; primary_key := primary_key t;
             rows := rows t ++ [r] |}.

(** [SELECT COUNT( * ) FROM players WHERE c1 = ? AND c2 = ?] *)
Definition count_where (c1 : string) (v1 : value) (c2 : string) (v2 : value)
    (t : table) : result nat :=
  i1 ← resolve c1 t;
  i2 ← resolve c2 t;
  Ok (length (List.filter
                (λ r, eq_value (item r i1) v1 && eq_value (item r i2) v2)
                (rows t))).

(** [ALTER TABLE players RENAME COLUMN old TO new] *)
Definition rename_column (old new : string) (t : table) : result table :=
  i ← resolve old t;
  if existsb (same_name new) (columns t).*1 then Fault OperationalError
  else Ok {| columns := alter (λ c, (new, c.2)) i (columns t);
             primary_key := primary_key t;
             rows := rows t |}.

(** [UPDATE players SET target = ? WHERE c1 = ? AND c2 = ?] *)
Definition update_where (target : string) (v : value)
    (c1 : string) (v1 : value) (c2 : string) (v2 : value) (t : table)
  : result table :=
  it ← resolve target t;
  i1 ← resolve c1 t;
  i2 ← resolve c2 t;
  Ok {| columns := columns t; primary_key := primary_key t;
        rows := (λ r, if eq_value (item r i1) v1 && eq_value (item r i2) v2
                      then <[it := v]> r else r) <$> rows t |}.

End Sqlite.

(** ** create_nba_database *)

(** [[header for header in headers if header not in ['Player', 'Tm']]] *)
Definition stat_headers (headers : list string) : list string :=
  List.filter (λ header, negb (String.eqb header "Player" || String.eqb header "Tm"))
    headers.

(** Lines 72-80: the columns of [create_table_query], in order. *)
Definition players_columns (headers : list string) : list (string * affinity) :=
  ("player_name", TEXT) :: ("player_team", TEXT)
    :: ((λ header, (header, TEXT)) <$> stat_headers headers) ++ [("PER", REAL)].

(** Lines 72-81.  The text of the query is built from the headers: a header
    that is one word (word characters only, not starting with a digit, which
    is what the scrape returns) stands in it as the name of a column, and
    SQLite rejects the query when that word is reserved or names a column
    twice.  A header that is not one word would change the statement itself;
    such headers are outside what this definition describes.  With no
    statistics column the comma-separated text has an empty item, which
    SQLite rejects. *)
Definition create_players_table (headers : list string) : result table :=
  match stat_headers headers with
  | [] => Fault OperationalError
  | _ => Sqlite.create_table (players_columns headers) ["player_name"; "player_team"]
  end.

(** Line 98: [[stat if stat else '0' for stat in player_stats]] *)
Definition fill_missing (player_stats : list string) : list string :=
  (λ stat, match stat with EmptyString => "0" | _ => stat end) <$> player_stats.

(** Lines 101-105: the values bound to [insert_query]; the statement names
    every column of the table in order and has one placeholder per value.
    The integer 0 bound to the REAL column [PER] is stored as 0.0. *)
Definition player_row (player_name player_team : string)
    (player_stats_filled : list string) : list value :=
  [VText player_name; VText player_team]
    ++ (VText <$> player_stats_filled) ++ [VReal 0%float].

(** Lines 84-105: the insertion loop over [player_data]. *)
Fixpoint insert_players (player_data : list (list string)) (t : table)
  : table * result unit :=
  match player_data with
  | [] => (t, Ok tt)
  | player_info :: rest =>
      match player_info with
      | player_name :: player_team :: player_stats =>
          match Sqlite.count_where "player_name" (VText player_name)
                  "player_team" (VText player_team) t with
          | Fault e => (t, Fault e)
          | Ok n =>
              if (n =? 0)%nat then
                match Sqlite.insert
                        (player_row player_name player_team (fill_missing player_stats))
                        t with
                | Fault e => (t, Fault e)
                | Ok t' => insert_players rest t'
                end
              else insert_players rest t
          end
      | _ => insert_players rest t         (* len(player_info) < 2: continue *)
      end
  end.

(** Lines 108-110: the three renames, one statement after the other. *)
Definition rename_columns (t : table) : table * result unit :=
  match Sqlite.rename_column "player_team" "Position" t with
  | Fault e => (t, Fault e)
  | Ok t1 =>
      match Sqlite.rename_column "Age" "Tm" t1 with
      | Fault e => (t1, Fault e)
      | Ok t2 =>
          match Sqlite.rename_column "Pos" "Age" t2 with
          | Fault e => (t2, Fault e)
          | Ok t3 => (t3, Ok tt)
          end
      end
  end.

(** Lines 68-113, on the empty file that [sqlite3.connect] has just made. *)
Definition populate (headers : list string) (player_data : list (list string))
  : database * result unit :=
  match create_players_table headers with
  | Fault e => (None, Fault e)
  | Ok t0 =>
      match insert_players player_data t0 with
      | (t1, Fault e) => (Some t1, Fault e)
      | (t1, Ok _) =>
          let '(t3, r) := rename_columns t1 in (Some t3, r)
      end
  end.

Definition create_nba_database (headers : list string)
    (player_data : list (list string)) (year : Z) (fs : files)
  : files * result unit :=
  match fs !! year with
  | Some _ => (fs, Ok tt)                (* already exists, skipping creation *)
  | None =>
      let '(db, r) := populate headers player_data in (<[year := db]> fs, r)
  end.

(** ** PER_calculator *)

(** [a / b] on floats: Python raises on a zero divisor (of either sign) and
    otherwise divides as IEEE 754 does. *)
Definition py_truediv (a b : float) : result float :=
  if PrimFloat.eqb b 0%float then Fault ZeroDivisionError else Ok (a / b)%float.

(** [record[i]] for a non-negative index. *)
Definition py_getitem (record : list value) (i : nat) : result value :=
  match record !! i with
  | Some v => Ok v
  | None => Fault IndexError
  end.

(** The thirteen inputs of the rating, named as the local variables of
    lines 138-150. *)
Record stats : Set := {
  minutes_played : float;
  points : float;
  assists : float;
  defensive_rebounds : float;
  offensive_rebounds : float;
  steals : float;
  blocks : float;
  two_pointers_made : float;
  three_pointers_made : float;
  two_pointers_attempted : float;
  three_pointers_attempted : float;
  turnovers : float;
  personal_fouls : float
}.

(** Lines 153-160.  Python parses [A - B / minutes_played] as
    [A - (B / minutes_played)]. *)
Definition PER_formula (s : stats) : result float :=
  let positive :=
    (points s + assists s + (defensive_rebounds s / 2) + offensive_rebounds s
     + (steals s * 2) + (blocks s * 2) + two_pointers_made s
     + (three_pointers_made s * 2))%float in
  let penalty :=
    ((two_pointers_attempted s / 2) + three_pointers_attempted s
     + (turnovers s * 2) + (personal_fouls s / 3))%float in
  quotient ← py_truediv penalty (minutes_played s);
  Ok (positive - quotient)%float.

Section Calculator.

(** Python's [float(str)]: the float a text denotes, if it denotes one. *)
Variable float_of_str : string → option float.

(** [float(x)] for what a fetched cell can be. *)
Definition py_float (x : value) : result float :=
  match x with
  | VText s =>
      match float_of_str s with
      | Some f => Ok f
      | None => Fault ValueError
      end
  | VReal f => Ok f
  | VNull => Fault TypeError
  end.

(** [float(player_record[i])] *)
Definition field (player_record : list value) (i : nat) : result float :=
  x ← py_getitem player_record i;
  py_float x.

(** Lines 138-150, in the order the program converts the fields. *)
Definition extract_stats (player_record : list value) : result stats :=
  minutes_played ← field player_record 6;
  points ← field player_record 28;
  assists ← field player_record 23;
  defensive_rebounds ← field player_record 21;
  offensive_rebounds ← field player_record 20;
  steals ← field player_record 24;
  blocks ← field player_record 25;
  two_pointers_made ← field player_record 13;
  three_pointers_made ← field player_record 10;
  two_pointers_attempted ← field player_record 14;
  three_pointers_attempted ← field player_record 11;
  turnovers ← field player_record 26;
  personal_fouls ← field player_record 27;
  Ok {| minutes_played := minutes_played; points := points;
        assists := assists; defensive_rebounds := defensive_rebounds;
        offensive_rebounds := offensive_rebounds; steals := steals;
        blocks := blocks; two_pointers_made := two_pointers_made;
        three_pointers_made := three_pointers_made;
        two_pointers_attempted := two_pointers_attempted;
        three_pointers_attempted := three_pointers_attempted;
        turnovers := turnovers; personal_fouls := personal_fouls |}.

(** Lines 138-160: the rating of one fetched record. *)
Definition PER_of_record (player_record : list value) : result float :=
  s ← extract_stats player_record;
  PER_formula s.

(** Line 163: the statement that writes the rating back. *)
Definition update_PER (PER : float) (player_record : list value) (t : table)
  : result table :=
  name ← py_getitem player_record 0;
  position ← py_getitem player_record 1;
  Sqlite.update_where "PER" (Sqlite.bind_float PER)
    "player_name" name "Position" position t.

(** Lines 136-163: the loop over the records fetched at line 134. *)
Fixpoint update_records (player_records : list (list value)) (t : table)
  : table * result unit :=
  match player_records with
  | [] => (t, Ok tt)
  | player_record :: rest =>
      match PER_of_record player_record with
      | Fault e => (t, Fault e)
      | Ok PER =>
          match update_PER PER player_record t with
          | Fault e => (t, Fault e)
          | Ok t' => update_records rest t'
          end
      end
  end.

(** [web year] is the page served for the season.  Connecting to a file
    that is not there makes an empty one, in which the [SELECT] then finds
    no table. *)
Definition PER_calculator (web : Z → soup) (year : Z) (fs : files)
  : files * result unit :=
  match scrape_nba_player_data (web year) with
  | Fault e => (fs, Fault e)
  | Ok (headers, player_data) =>
      match fs !! year with
      | None => (<[year := None]> fs, Fault OperationalError)
      | Some None => (fs, Fault OperationalError)
      | Some (Some t) =>
          let player_records := rows t in
          let '(t', r) := update_records player_records t in
          (<[year := Some t']> fs, r)
      end
  end.

(** [main], for one season of its list [years]. *)
Definition run_season (web : Z → soup) (year : Z) (fs : files)
  : files * result unit :=
  match scrape_nba_player_data (web year) with
  | Fault e => (fs, Fault e)
  | Ok (headers, player_data) =>
      match create_nba_database headers player_data year fs with
      | (fs1, Fault e) => (fs1, Fault e)
      | (fs1, Ok _) => PER_calculator web year fs1
      end
  end.

Definition main (web : Z → soup) (fs : files) : files * result unit :=
  run_season web 2024 fs.

End Calculator.

(** ** print_top_players *)

(** Line 183: [SELECT player_name, Position, PER FROM players WHERE G >= 50],
    the rows handed to the ranking. *)
Definition games_filter (i_g : nat) (a : affinity) (r : list value) : bool :=
  Sqlite.ge_value (Sqlite.item r i_g) (Sqlite.literal_50 a).

Definition print_top_players_records (t : table)
  : result (list (value * value * value)) :=
  i_name ← Sqlite.resolve "player_name" t;
  i_position ← Sqlite.resolve "Position" t;
  i_per ← Sqlite.resolve "PER" t;
  i_g ← Sqlite.resolve "G" t;
  let a := default TEXT (snd <$> columns t !! i_g) in
  Ok ((λ r, (Sqlite.item r i_name, Sqlite.item r i_position, Sqlite.item r i_per))
        <$> List.filter (games_filter i_g a) (rows t)).

(** ** A reading of plain decimal literals *)

(** Digits with an optional fraction, read as mantissa over a power of ten;
    on short literals this is the float Python's [float] returns.  It serves
    to run the calculator on concrete rows. *)
Module Decimal.

Definition digit (c : ascii) : option Z :=
  let n := Text.code c in
  if Text.between 48 57 n then Some (Z.of_N n - 48)%Z else None.

(** Reads digits into [acc]; after the point, [scale] counts the fraction
    digits.  [seen] records that at least one digit was read. *)
Fixpoint read (s : string) (acc : Z) (scale : option Z) (seen : bool)
  : option (Z * Z) :=
  match s with
  | EmptyString => if seen then Some (acc, default 0%Z scale) else None
  | String c s' =>
      match digit c with
      | Some d => read s' (10 * acc + d)%Z (Z.succ <$> scale) true
      | None =>
          if Ascii.eqb c "." then
            match scale with
            | None => read s' acc (Some 0%Z) seen
            | Some _ => None
            end
          else None
      end
  end.

Definition of_Z (z : Z) : float := PrimFloat.of_uint63 (Uint63.of_Z z).

Definition float_of_str (s : string) : option float :=
  match read s 0 None false with
  | Some (m, k) =>
      if ((m <? 2 ^ 53) && (k <=? 15))%Z
      then Some (of_Z m / of_Z (10 ^ k))%float
      else None
  | None => None
  end.

End Decimal.

(** ** Vocabulary of the statements *)

(** The values stored under a column name, row by row. *)
Definition column_values (name : string) (t : table) : option (list value) :=
  i ← Sqlite.column_index name (columns t);
  Some ((λ r, Sqlite.item r i) <$> rows t).

(** The affinity of the column a name resolves to. *)
Definition column_affinity (name : string) (t : table) : option affinity :=
  i ← Sqlite.column_index name (columns t);
  snd <$> columns t !! i.

(** Every column is declared TEXT, but for the one named PER. *)
Definition text_but_PER (cols : list (string * affinity)) : Prop :=
  Forall (λ c, c.2 = REAL → Sqlite.same_name c.1 "PER" = true) cols.

(** The identity pair of a stored row: its first two cells, which
    [create_nba_database] fills with [player_name] and [player_team]. *)
Definition identity (r : list value) : value * value :=
  (Sqlite.item r 0, Sqlite.item r 1).

Definition same_identity (r r' : list value) : bool :=
  Sqlite.eq_value (Sqlite.item r 0) (Sqlite.item r' 0)
  && Sqlite.eq_value (Sqlite.item r 1) (Sqlite.item r' 1).

(** The schema as [create_table_query] lays it out: the two identity columns
    come first. *)
Definition keyed (t : table) : Prop :=
  Sqlite.column_index "player_name" (columns t) = Some 0%nat ∧
  Sqlite.column_index "player_team" (columns t) = Some 1%nat.

(** The rating is not stored in an identity column. *)
Definition per_off_key (t : table) : Prop :=
  ∀ i, Sqlite.column_index "PER" (columns t) = Some i → (2 ≤ i)%nat.

(** No two rows share an identity pair. *)
Definition identities_unique (t : table) : Prop :=
  NoDup (identity <$> rows t).

Definition store_invariant (db : database) : Prop :=
  match db with
  | Some t => identities_unique t ∧ per_off_key t
  | None => True
  end.

(** A stored row that the insertion loop made from a scraped row with at
    least the two leading fields. *)
Definition ingested (player_data : list (list string)) (row : list value) : Prop :=
  ∃ player_name player_team player_stats,
    (player_name :: player_team :: player_stats) ∈ player_data ∧
    row = player_row player_name player_team (fill_missing player_stats).

(** The directories the program can leave behind, starting from one without
    stores: any sequence of runs of its two writers, faulting or not. *)
Inductive reachable (float_of_str : string → option float) : files → Prop :=
  | reachable_empty : reachable float_of_str ∅
  | reachable_create headers player_data year fs :
      reachable float_of_str fs →
      reachable float_of_str (create_nba_database headers player_data year fs).1
  | reachable_PER web year fs :
      reachable float_of_str fs →
      reachable float_of_str (PER_calculator float_of_str web year fs).1.

(** The twelve fields converted after [minutes_played], in program order. *)
Definition other_fields : list nat :=
  [28; 23; 21; 20; 24; 25; 13; 10; 14; 11; 26; 27]%nat.

Definition fields_parse (float_of_str : string → option float)
    (player_record : list value) (ixs : list nat) : bool :=
  forallb (λ i, is_ok (field float_of_str player_record i)) ixs.

(** The score as the specification writes it:
    [points + assists + defReb/2 + offReb + 2*steals + 2*blocks + made2 + 2*made3]
    minus [(att2/2 + att3 + 2*turnovers + fouls/3) / M]. *)
Definition score_as_specified (s : stats) : float :=
  ((points s + assists s + defensive_rebounds s / 2 + offensive_rebounds s
    + 2 * steals s + 2 * blocks s + two_pointers_made s
    + 2 * three_pointers_made s)
   - ((two_pointers_attempted s / 2 + three_pointers_attempted s
       + 2 * turnovers s + personal_fouls s / 3) / minutes_played s))%float.

(** ** A small season *)

Module Sample.

Definition header_row : tr :=
  th <$> ["Rk"; "Player"; "Pos"; "Age"; "Tm"; "G"; "GS"; "MP"; "FG"; "FGA";
          "FG%"; "3P"; "3PA"; "3P%"; "2P"; "2PA"; "2P%"; "eFG%"; "FT"; "FTA";
          "FT%"; "ORB"; "DRB"; "TRB"; "AST"; "STL"; "BLK"; "TOV"; "PF"; "PTS"].

Definition player (rk : string) (fields : list string) : tr :=
  th rk :: (td <$> fields).

(** points 20, assists 5, defensive rebounds 4, offensive rebounds 2,
    steals 1, blocks 1, two-pointers 6 of 10, three-pointers 2 of 5,
    turnovers 2, fouls 3, in 30 minutes. *)
Definition guard_fields : list string :=
  ["Ann Alpha"; "PG"; "27"; "BOS"; "50"; "50"; "30"; "8"; "15"; ".533";
   "2"; "5"; ".400"; "6"; "10"; ".600"; ".600"; "2"; "3"; ".667";
   "2"; "4"; "6"; "5"; "1"; "1"; "2"; "3"; "20"].

(** The same line with 49 games. *)
Definition wing_fields : list string :=
  ["Cy Gamma"; "SF"; "24"; "DEN"; "49"; "10"; "30"; "8"; "15"; ".533";
   "2"; "5"; ".400"; "6"; "10"; ".600"; ".600"; "2"; "3"; ".667";
   "2"; "4"; "6"; "5"; "1"; "1"; "2"; "3"; "20"].

(** A player who never took the floor: no minutes, blank percentages. *)
Definition bench_fields : list string :=
  ["Bob Beta"; "C"; "31"; "LAL"; "6"; "0"; "0"; "0"; "0"; "";
   "0"; "0"; ""; "0"; "0"; ""; ""; "0"; "0"; "";
   "0"; "0"; "0"; "0"; "0"; "0"; "0"; "0"; "0"].

(** The page repeats its header row between blocks of players, and lists
    a player once more. *)
Definition page : soup :=
  {| per_game_stats :=
       Some [header_row; player "1" guard_fields; header_row;
             player "2" wing_fields; player "1" guard_fields] |}.

Definition page_with_bench : soup :=
  {| per_game_stats :=
       Some [header_row; player "1" guard_fields; player "3" bench_fields] |}.

(** A page whose table has a column without a label. *)
Definition page_blank_header : soup :=
  {| per_game_stats :=
       Some [th <$> ["Rk"; "Player"; ""; "Pos"]; player "1" ["Ann Alpha"; ""; "PG"]] |}.

Definition headers : list string :=
  match scrape_nba_player_data page with
  | Ok (headers, _) => headers
  | Fault _ => []
  end.

Definition player_data : list (list string) :=
  match scrape_nba_player_data page with
  | Ok (_, player_data) => player_data
  | Fault _ => []
  end.

Definition stored : files := (create_nba_database headers player_data 2024 ∅).1.

Definition players : table :=
  match stored !! 2024%Z with
  | Some (Some t) => t
  | _ => {| columns := []; primary_key := []; rows := [] |}
  end.

Definition guard_record : list value :=
  player_row "Ann Alpha" "PG" (drop 2 guard_fields).

Definition bench_record : list value :=
  player_row "Bob Beta" "C" (fill_missing (drop 2 bench_fields)).

Definition guard_stats : stats :=
  {| minutes_played := 30; points := 20; assists := 5;
     defensive_rebounds := 4; offensive_rebounds := 2; steals := 1;
     blocks := 1; two_pointers_made := 6; three_pointers_made := 2;
     two_pointers_attempted := 10; three_pointers_attempted := 5;
     turnovers := 2; personal_fouls := 3 |}.

End Sample.

(** ** print_top_players: the ranking *)

(** Python's [==] between fetched values, as a dict compares its keys. *)
Definition py_eq (a b : value) : bool :=
  match a, b with
  | VNull, VNull => true
  | VText s, VText s' => String.eqb s s'
  | VReal f, VReal g => PrimFloat.eqb f g
  | _, _ => false
  end.

(** Python's [<] between fetched values: defined between two floats and
    between two strings, a [TypeError] otherwise. *)
Definition py_lt (a b : value) : result bool :=
  match a, b with
  | VReal f, VReal g => Ok (PrimFloat.ltb f g)
  | VText s, VText s' => Ok (String.ltb s s')
  | _, _ => Fault TypeError
  end.

(** Lines 190-192: [players_by_position[position].append((player_name, per))],
    with a new list on the first sight of a position.  The dict keeps its keys
    in insertion order. *)
Fixpoint dict_append (position : value) (entry : value * value)
    (d : list (value * list (value * value)))
  : list (value * list (value * value)) :=
  match d with
  | [] => [(position, [entry])]
  | (k, players) :: rest =>
      if py_eq k position then (k, players ++ [entry]) :: rest
      else (k, players) :: dict_append position entry rest
  end.

(** Lines 187-192: the loop that fills [players_by_position]. *)
Definition group_by_position (player_records : list (value * value * value))
  : list (value * list (value * value)) :=
  fold_left
    (λ d '(player_name, position, per), dict_append position (player_name, per) d)
    player_records [].

(** One insertion of a stable descending sort on the second component,
    comparing with [<] as [list.sort] does. *)
Fixpoint insert_desc (x : value * value) (sorted : list (value * value))
  : result (list (value * value)) :=
  match sorted with
  | [] => Ok [x]
  | y :: rest =>
      lt ← py_lt x.2 y.2;
      if lt : bool then r ← insert_desc x rest; Ok (y :: r)
      else Ok (x :: y :: rest)
  end.

(** [sorted(players, key=lambda x: x[1], reverse=True)].  Python's sort is
    stable, also in reverse, and raises when a comparison does; sorting two
    or more keys compares each of them with another one, so that this
    insertion sort faults on the same lists and returns the same list. *)
Fixpoint sorted_desc (players : list (value * value))
  : result (list (value * value)) :=
  match players with
  | [] => Ok []
  | x :: rest => s ← sorted_desc rest; insert_desc x s
  end.

(** The format [{per:.2f}]: defined on a float, whose digits are not
    modelled; the line keeps the float. *)
Definition format_2f (per : value) : result float :=
  match per with
  | VReal f => Ok f
  | VNull => Fault TypeError
  | VText _ => Fault ValueError
  end.

(** The lines printed for a list of players: name and rating. *)
Definition ranking_lines (players : list (value * value))
  : result (list (value * float)) :=
  mapM (λ '(player_name, per), f ← format_2f per; Ok (player_name, f)) players.

(** Lines 186-208: the blocks printed per position, in dict order, and the
    overall list. *)
Definition top_players_report (player_records : list (value * value * value))
  : result (list (value * list (value * float)) * list (value * float)) :=
  let players_by_position := group_by_position player_records in
  by_position ←
    mapM (λ '(position, players),
            players_sorted ← sorted_desc players;
            lines ← ranking_lines (take 10 players_sorted);
            Ok (position, lines))
         players_by_position;
  let all_players := concat players_by_position.*2 in
  all_players_sorted ← sorted_desc all_players;
  overall ← ranking_lines (take 75 all_players_sorted);
  Ok (by_position, overall).

(** [print_top_players(year)], returning what it prints.  As in
    [PER_calculator], connecting to a missing file makes an empty one. *)
Definition print_top_players (year : Z) (fs : files)
  : files * result (list (value * list (value * float)) * list (value * float)) :=
  match fs !! year with
  | None => (<[year := None]> fs, Fault OperationalError)
  | Some None => (fs, Fault OperationalError)
  | Some (Some t) =>
      (fs, player_records ← print_top_players_records t;
           top_players_report player_records)
  end.

(** ** Vocabulary of the further statements *)


(** The stored row made from a scraped row with its two leading fields. *)
Definition row_of_info (player_info : list string) : list value :=
  match player_info with
  | player_name :: player_team :: player_stats =>
      player_row player_name player_team (fill_missing player_stats)
  | _ => []
  end.

(** The scraped rows with two leading fields whose identity pair occurs for
    the first time, in page order; [seen] holds the pairs met before. *)
Fixpoint first_occurrences (seen : list (string * string))
    (player_data : list (list string)) : list (list string) :=
  match player_data with
  | [] => []
  | (player_name :: player_team :: player_stats) :: rest =>
      if decide ((player_name, player_team) ∈ seen)
      then first_occurrences seen rest
      else (player_name :: player_team :: player_stats)
             :: first_occurrences ((player_name, player_team) :: seen) rest
  | _ :: rest => first_occurrences seen rest
  end.

(** [r'] is [r] but for the cell of the column named PER. *)
Definition same_but_PER (t : table) (r r' : list value) : Prop :=
  length r' = length r ∧
  ∀ i, Sqlite.column_index "PER" (columns t) ≠ Some i → r' !! i = r !! i.

(** A row with its own rating written into cell [i_per]. *)
Definition rated (float_of_str : string → option float) (i_per : nat)
    (r : list value) : list value :=
  match PER_of_record float_of_str r with
  | Ok PER => <[i_per := Sqlite.bind_float PER]> r
  | Fault _ => r
  end.

(** A row whose two identity cells are text. *)
Definition text_identity (r : list value) : Prop :=
  ∃ name team, r !! 0%nat = Some (VText name) ∧ r !! 1%nat = Some (VText team).

(** The order of the floats that are numbers, as a lexicographic order on
    sign class, exponent and mantissa. *)
Definition rank (x : spec_float) : Z * Z * Z :=
  match x with
  | S754_zero _ => (0, 0, 0)%Z
  | S754_infinity false => (2, 0, 0)%Z
  | S754_infinity true => (-2, 0, 0)%Z
  | S754_nan => (0, 0, 0)%Z
  | S754_finite false m e => (1, e, Zpos m)%Z
  | S754_finite true m e => (-1, - e, Zneg m)%Z
  end.

Definition lex_lt (a b : Z * Z * Z) : Prop :=
  let '(a1, a2, a3) := a in
  let '(b1, b2, b3) := b in
  (a1 < b1 ∨ (a1 = b1 ∧ (a2 < b2 ∨ (a2 = b2 ∧ a3 < b3))))%Z.

(** A float that is not a NaN. *)
Definition is_number (f : float) : Prop := PrimFloat.eqb f f = true.

Definition is_float (v : value) : Prop := ∃ f, v = VReal f.

Definition is_text (v : value) : Prop := ∃ s, v = VText s.

(** An entry (name, rating) whose rating is a float that is a number. *)
Definition rating_number (entry : value * value) : Prop :=
  ∃ f, entry.2 = VReal f ∧ is_number f.

(** [a] is not rated below [b]. *)
Definition not_below (a b : value * value) : Prop :=
  ∃ f g, a.2 = VReal f ∧ b.2 = VReal g ∧ PrimFloat.ltb f g = false.

(** Of a fetched record (player_name, Position, PER): what the ranking
    keeps, and the key it is grouped by. *)
Definition entry_of (player_record : value * value * value) : value * value :=
  (player_record.1.1, player_record.2).

Definition position_of (player_record : value * value * value) : value :=
  player_record.1.2.

(** A position that is text or [NULL]: on these [==] is equality. *)
Definition plain (v : value) : Prop :=
  match v with VReal _ => False | _ => True end.

(** The entries of the records at position [k], in fetch order. *)
Definition of_position (k : value) (player_records : list (value * value * value))
  : list (value * value) :=
  entry_of <$> List.filter (λ rec, py_eq k (position_of rec)) player_records.

(** What the grouping loop keeps true of the dict, [seen] being the records
    taken so far: the keys differ, each key has the entries of its records in
    order, and every record taken has its position among the keys. *)
Definition grouped (seen : list (value * value * value))
    (d : list (value * list (value * value))) : Prop :=
  NoDup d.*1 ∧
  Forall (λ kv, plain kv.1 ∧ kv.2 = of_position kv.1 seen ∧ kv.2 ≠ []) d ∧
  Forall (λ rec, position_of rec ∈ d.*1) seen.

(** A printed line as the entry it was made from, and back. *)
Definition line_entry (line : value * float) : value * value :=
  (line.1, VReal line.2).

Definition line_of (e : value * value) : value * float :=
  (e.1, match e.2 with VReal f => f | _ => 0%float end).

(** [lines] are the first [n] of [players] in descending order of rating:
    there are [n] of them, or all the players if these are fewer; no line is
    followed by a higher rating; and the players left out, [rest], are none
    of them rated above a listed one. *)
Definition top_of (n : nat) (players : list (value * value))
    (lines : list (value * float)) : Prop :=
  length lines = min n (length players) ∧
  StronglySorted (λ a b, PrimFloat.ltb a.2 b.2 = false) lines ∧
  ∃ rest,
    players ≡ₚ (line_entry <$> lines) ++ rest ∧
    ∀ line e, line ∈ lines → e ∈ rest →
      ∃ g, e.2 = VReal g ∧ PrimFloat.ltb line.2 g = false.

(** ** print_top_players_by_team *)

Module Select.

(** Two values that [DISTINCT] takes for one: equal text, equal reals, and
    [NULL] with [NULL]. *)
Definition same (a b : value) : bool :=
  match a, b with
  | VNull, VNull => true
  | _, _ => Sqlite.eq_value a b
  end.

(** The rows of a [DISTINCT].  SQL leaves their order open; SQLite scans the
    table in insertion order and gives each value where it first meets it. *)
Fixpoint distinct_values (vals : list value) : list value :=
  match vals with
  | [] => []
  | v :: rest => v :: List.filter (λ w, negb (same v w)) (distinct_values rest)
  end.

(** [SELECT DISTINCT c FROM players] *)
Definition distinct (c : string) (t : table) : result (list value) :=
  i ← Sqlite.resolve c t;
  Ok (distinct_values ((λ r, Sqlite.item r i) <$> rows t)).

(** The order of [ORDER BY]: [NULL] first, then the reals by value, then the
    text character by character. *)
Definition lt (a b : value) : bool :=
  match a, b with
  | _, VNull => false
  | VNull, _ => true
  | VReal x, VReal y => PrimFloat.ltb x y
  | VReal _, VText _ => true
  | VText _, VReal _ => false
  | VText x, VText y => String.ltb x y
  end.

(** [ORDER BY key DESC].  SQL leaves the order of rows with equal keys open;
    SQLite's sorter keeps them in scan order. *)
Fixpoint insert_desc (key : list value → value) (r : list value)
    (sorted : list (list value)) : list (list value) :=
  match sorted with
  | [] => [r]
  | r' :: rest =>
      if lt (key r) (key r') then r' :: insert_desc key r rest
      else r :: r' :: rest
  end.

Fixpoint order_by_desc (key : list value → value) (rs : list (list value))
  : list (list value) :=
  match rs with
  | [] => []
  | r :: rest => insert_desc key r (order_by_desc key rest)
  end.

End Select.

(** Line 233: [SELECT player_name, PER, G, GS FROM players WHERE Tm = ?
    ORDER BY PER DESC LIMIT 5]. *)
Definition top_of_team (team : value) (t : table)
  : result (list (value * value * value * value)) :=
  i_name ← Sqlite.resolve "player_name" t;
  i_per ← Sqlite.resolve "PER" t;
  i_g ← Sqlite.resolve "G" t;
  i_gs ← Sqlite.resolve "GS" t;
  i_tm ← Sqlite.resolve "Tm" t;
  let matching :=
    List.filter (λ r, Sqlite.eq_value (Sqlite.item r i_tm) team) (rows t) in
  let ordered := Select.order_by_desc (λ r, Sqlite.item r i_per) matching in
  Ok ((λ r, (Sqlite.item r i_name, Sqlite.item r i_per,
             Sqlite.item r i_g, Sqlite.item r i_gs)) <$> take 5 ordered).

(** Lines 235-236: the lines of one team; only the rating is formatted with
    a precision. *)
Definition team_lines (players : list (value * value * value * value))
  : result (list (value * float * value * value)) :=
  mapM (λ '(player_name, per, games_played, games_started),
          f ← format_2f per;
          Ok (player_name, f, games_played, games_started))
       players.

(** [print_top_players_by_team(year)], returning what it prints: the teams
    in the order of the first query, each with its lines. *)
Definition print_top_players_by_team (year : Z) (fs : files)
  : files * result (list (value * list (value * float * value * value))) :=
  match fs !! year with
  | None => (<[year := None]> fs, Fault OperationalError)
  | Some None => (fs, Fault OperationalError)
  | Some (Some t) =>
      (fs, teams ← Select.distinct "Tm" t;
           mapM (λ team,
                   players ← top_of_team team t;
                   lines ← team_lines players;
                   Ok (team, lines))
                teams)
  end.

(** The line printed for a stored row, given where its columns are. *)
Definition team_line (i_name i_per i_g i_gs : nat) (r : list value)
  : value * float * value * value :=
  (Sqlite.item r i_name,
   match Sqlite.item r i_per with VReal f => f | _ => 0%float end,
   Sqlite.item r i_g, Sqlite.item r i_gs).

(** [chosen] are the first [n] of the rows [candidates] in descending order
    of [rating]: [n] of them, or all if these are fewer; no row followed by
    a higher rating; none of the rows left out rated above a chosen one. *)
Definition top_rows (n : nat) (rating : list value → value)
    (candidates chosen : list (list value)) : Prop :=
  length chosen = min n (length candidates) ∧
  StronglySorted (λ a b, Select.lt (rating a) (rating b) = false) chosen ∧
  ∃ rest,
    candidates ≡ₚ chosen ++ rest ∧
    ∀ a b, a ∈ chosen → b ∈ rest → Select.lt (rating a) (rating b) = false.

(** A value that is a float and a number. *)
Definition is_rating (v : value) : Prop := ∃ f, v = VReal f ∧ is_number f.

(** ** A second small season *)

Module League.

(** Fields of a player line: name, position, age, team, games, then the
    statistics of [Sample.guard_fields] with the given points. *)
Definition line (name pos tm games pts : string) : list string :=
  [name; pos; "25"; tm; games; "10"; "30"; "8"; "15"; ".533";
   "2"; "5"; ".400"; "6"; "10"; ".600"; ".600"; "2"; "3"; ".667";
   "2"; "4"; "6"; "5"; "1"; "1"; "2"; "3"; pts].

Definition page : soup :=
  {| per_game_stats :=
       Some [Sample.header_row;
             Sample.player "1" (line "Ann Alpha" "PG" "BOS" "50" "20");
             Sample.player "2" (line "Bo Beta" "C" "LAL" "82" "31");
             Sample.header_row;
             Sample.player "3" (line "Cy Gamma" "PG" "DEN" "61" "25");
             Sample.player "4" (line "Di Delta" "SF" "DEN" "49" "40");
             Sample.player "1" (line "Ann Alpha" "PG" "BOS" "50" "99")] |}.

Definition headers : list string :=
  match scrape_nba_player_data page with
  | Ok (headers, _) => headers
  | Fault _ => []
  end.

Definition player_data : list (list string) :=
  match scrape_nba_player_data page with
  | Ok (_, player_data) => player_data
  | Fault _ => []
  end.

Definition created : files := (create_nba_database headers player_data 2024 ∅).1.

Definition created_players : table :=
  match created !! 2024%Z with
  | Some (Some t) => t
  | _ => {| columns := []; primary_key := []; rows := [] |}
  end.

(** The directory after [main]. *)
Definition season : files := (main Decimal.float_of_str (λ _, page) ∅).1.

Definition players : table :=
  match season !! 2024%Z with
  | Some (Some t) => t
  | _ => {| columns := []; primary_key := []; rows := [] |}
  end.

Definition eligible : list (value * value * value) :=
  match print_top_players_records players with
  | Ok player_records => player_records
  | Fault _ => []
  end.

(** Two labels that the sanitizer maps to names SQLite takes for the same. *)
Definition colliding_headers : list string :=
  ["Player"; "Pos"; "Age"; "Tm"; "FGPct"; "fgpct"].

(** The sample season without the last column of its page: 26 statistics
    headers. *)
Definition short_headers : list string := take 28 Sample.headers.

Definition short_player_data : list (list string) :=
  take 28 <$> Sample.player_data.

Definition short_created : files :=
  (create_nba_database short_headers short_player_data 2024 ∅).1.

(** The ratings stored for 2024, row by row. *)
Definition ratings (fs : files) : option (list value) :=
  match fs !! 2024%Z with
  | Some (Some t) => column_values "PER" t
  | _ => None
  end.

End League.

(** * Properties *)

(** ** Characters and header text *)

Ltac by_cases_on_char c :=
  destruct c as [[] [] [] [] [] [] [] []]; vm_compute; congruence.

Lemma isword_not_isspace c : Text.isword c = true → Text.isspace c = false.
Proof. by_cases_on_char c. Qed.

Lemma isword_not_percent c : Text.isword c = true → Ascii.eqb c "%" = false.
Proof. by_cases_on_char c. Qed.

Lemma isdigit_isword c : Text.isdigit c = true → Text.isword c = true.
Proof. by_cases_on_char c. Qed.

Lemma all_word_sub_nonword s :
  Text.all_chars Text.isword (Text.sub_nonword s) = true.
Proof.
  induction s as [|c s IH]; simpl; [done|].
  destruct (Text.isword c) eqn:Hc; simpl; [by rewrite Hc|done].
Qed.

Section WordOnly.

Variable s : string.
Hypothesis Hs : Text.all_chars Text.isword s = true.

Lemma sub_nonword_fixed : Text.sub_nonword s = s.
Proof using Hs.
  induction s as [|c s' IH]; simpl in *; [done|].
  apply andb_prop in Hs as [Hc Hs']. rewrite Hc. by rewrite IH.
Qed.

Lemma replace_percent_fixed : Text.replace_percent s = s.
Proof using Hs.
  induction s as [|c s' IH]; simpl in *; [done|].
  apply andb_prop in Hs as [Hc Hs'].
  rewrite (isword_not_percent _ Hc). by rewrite IH.
Qed.

Lemma lstrip_fixed : Text.lstrip s = s.
Proof using Hs.
  destruct s as [|c s']; simpl in *; [done|].
  apply andb_prop in Hs as [Hc _]. by rewrite (isword_not_isspace _ Hc).
Qed.

Lemma rstrip_fixed : Text.rstrip s = s.
Proof using Hs.
  induction s as [|c s' IH]; simpl in *; [done|].
  apply andb_prop in Hs as [Hc Hs']. rewrite (IH Hs').
  destruct s'; [by rewrite (isword_not_isspace _ Hc)|done].
Qed.

Lemma header_text_fixed : header_text s = s.
Proof using Hs.
  unfold header_text, Text.strip. rewrite lstrip_fixed, rstrip_fixed.
  apply replace_percent_fixed.
Qed.

End WordOnly.

(** What the loop body returns is made of word characters and does not start
    with a digit. *)
Lemma sanitize_header_Ok header s :
  sanitize_header header = Ok s →
  Text.all_chars Text.isword s = true ∧
  ∃ c s', s = String c s' ∧ Text.isdigit c = false.
Proof.
  unfold sanitize_header. intros H.
  pose proof (all_word_sub_nonword header) as Hw.
  destruct (Text.sub_nonword header) as [|c s'] eqn:E; [done|].
  destruct (Text.isdigit c) eqn:Hd; inversion H; subst; clear H.
  - split; [done|]. by eexists _, _.
  - split; [done|]. by eexists _, _.
Qed.

Lemma sanitize_header_fixed s :
  Text.all_chars Text.isword s = true →
  (∃ c s', s = String c s' ∧ Text.isdigit c = false) →
  sanitize_header s = Ok s.
Proof.
  intros Hw (c & s' & -> & Hd). unfold sanitize_header.
  rewrite (sub_nonword_fixed _ Hw). by rewrite Hd.
Qed.

(** The sanitizer faults exactly on the labels that have no word character. *)
Lemma header_sanitization_faults raw :
  Text.sub_nonword (header_text raw) = EmptyString ↔
  header_sanitization raw = Fault IndexError.
Proof.
  unfold header_sanitization, sanitize_header.
  destruct (Text.sub_nonword (header_text raw)) as [|c s']; [done|].
  by destruct (Text.isdigit c).
Qed.

Lemma header_sanitization_total_on_words raw :
  Text.sub_nonword (header_text raw) ≠ EmptyString →
  ∃ s, header_sanitization raw = Ok s.
Proof.
  unfold header_sanitization, sanitize_header.
  destruct (Text.sub_nonword (header_text raw)) as [|c s']; [done|].
  destruct (Text.isdigit c); eauto.
Qed.

(** C6.  Header sanitization is a function of the label, hence deterministic,
    but it is not total: on the empty label, and on any label without a word
    character, [sanitized_header[0]] indexes an empty string and the scrape
    of a page with such a header cell stops with that fault. *)
Theorem header_sanitization_empty_faults :
  header_sanitization "" = Fault IndexError
  ∧ header_sanitization " - " = Fault IndexError
  ∧ scrape_nba_player_data Sample.page_blank_header = Fault IndexError.
Proof. repeat split; reflexivity. Qed.

(** C7.  Header sanitization is idempotent: whenever it returns a header,
    sanitizing that header returns it unchanged.  The label 3P becomes _3P,
    and _3P stays _3P. *)
Theorem header_sanitization_idempotent :
  (∀ raw s, header_sanitization raw = Ok s → header_sanitization s = Ok s)
  ∧ header_sanitization "3P" = Ok "_3P"
  ∧ header_sanitization "_3P" = Ok "_3P".
Proof.
  split; [|split; reflexivity].
  intros raw s H. unfold header_sanitization in *.
  apply sanitize_header_Ok in H as [Hw Hd].
  rewrite (header_text_fixed _ Hw). by apply sanitize_header_fixed.
Qed.

Lemma header_sanitization_idempotent_witness :
  header_sanitization " 3P% " = Ok "_3PPct"
  ∧ header_sanitization "_3PPct" = Ok "_3PPct".
Proof.
  split; [reflexivity|].
  apply (proj1 header_sanitization_idempotent " 3P% "). reflexivity.
Defined.

(** ** Column names and renames *)

Lemma same_name_spec a b :
  Sqlite.same_name a b = true ↔ Text.casefold a = Text.casefold b.
Proof. apply String.eqb_eq. Qed.

Lemma same_name_sym a b : Sqlite.same_name a b = Sqlite.same_name b a.
Proof. apply String.eqb_sym. Qed.

Lemma same_name_trans_false a b c :
  Sqlite.same_name a b = true → Sqlite.same_name b c = false →
  Sqlite.same_name a c = false.
Proof.
  intros Hab Hbc. apply same_name_spec in Hab.
  apply not_true_is_false. intros Hac. apply same_name_spec in Hac.
  assert (Sqlite.same_name b c = true) by (apply same_name_spec; congruence).
  congruence.
Qed.

Section Rename.

Variables old new : string.

(** The renamed column answers to the new name, at the same position. *)
Lemma column_index_renamed cols i :
  Sqlite.column_index old cols = Some i →
  existsb (Sqlite.same_name new) cols.*1 = false →
  Sqlite.column_index new (alter (λ c, (new, c.2)) i cols) = Some i.
Proof.
  revert i. induction cols as [|[c a] rest IH]; intros i Hi Hnew; [done|].
  simpl in Hi, Hnew. apply orb_false_elim in Hnew as [Hc Hrest].
  destruct (Sqlite.same_name c old) eqn:Hco.
  - inversion Hi; subst. simpl. unfold Sqlite.same_name.
    by rewrite String.eqb_refl.
  - destruct (Sqlite.column_index old rest) as [j|] eqn:Hj; [|done].
    inversion Hi; subst. specialize (IH j eq_refl Hrest).
    simpl. rewrite same_name_sym, Hc. exact (f_equal (fmap S) IH).
Qed.

(** Every other name keeps its column. *)
Lemma column_index_kept cols i name :
  Sqlite.column_index old cols = Some i →
  Sqlite.same_name new name = false → Sqlite.same_name old name = false →
  Sqlite.column_index name (alter (λ c, (new, c.2)) i cols)
  = Sqlite.column_index name cols.
Proof.
  intros Hi Hn Ho. revert i Hi.
  induction cols as [|[c a] rest IH]; intros i Hi; [done|].
  simpl in Hi. destruct (Sqlite.same_name c old) eqn:Hco.
  - inversion Hi; subst. simpl. rewrite Hn.
    by rewrite (same_name_trans_false c old name).
  - destruct (Sqlite.column_index old rest) as [j|] eqn:Hj; [|done].
    inversion Hi; subst. specialize (IH j eq_refl).
    simpl. destruct (Sqlite.same_name c name); [done|].
    exact (f_equal (fmap S) IH).
Qed.

Lemma rename_column_Ok t t' :
  Sqlite.rename_column old new t = Ok t' →
  rows t' = rows t ∧ primary_key t' = primary_key t ∧
  Sqlite.column_index new (columns t') = Sqlite.column_index old (columns t) ∧
  is_Some (Sqlite.column_index old (columns t)) ∧
  (∀ name, Sqlite.same_name new name = false →
           Sqlite.same_name old name = false →
     Sqlite.column_index name (columns t') = Sqlite.column_index name (columns t)).
Proof.
  unfold Sqlite.rename_column, Sqlite.resolve. intros H.
  destruct (Sqlite.column_index old (columns t)) as [i|] eqn:Hi; [|done].
  simpl in H. destruct (existsb _ _) eqn:Hnew; [done|].
  inversion H; subst; clear H. simpl. repeat split; eauto.
  - by apply column_index_renamed.
  - intros. by apply column_index_kept.
Qed.

Lemma column_values_renamed t t' :
  Sqlite.rename_column old new t = Ok t' →
  column_values new t' = column_values old t ∧ is_Some (column_values old t).
Proof.
  intros H. apply rename_column_Ok in H as (R & _ & I & [i Hi] & _).
  unfold column_values. rewrite I, R, Hi. simpl. eauto.
Qed.

Lemma column_values_kept name t t' :
  Sqlite.rename_column old new t = Ok t' →
  Sqlite.same_name new name = false → Sqlite.same_name old name = false →
  column_values name t' = column_values name t.
Proof.
  intros H Hn Ho. apply rename_column_Ok in H as (R & _ & _ & _ & K).
  unfold column_values. by rewrite K, R.
Qed.

End Rename.

(** The renames touch no row, whether or not all three go through. *)
Lemma rename_columns_rows t : rows (rename_columns t).1 = rows t.
Proof.
  unfold rename_columns.
  destruct (Sqlite.rename_column "player_team" "Position" t) as [t1|] eqn:H1; [|done].
  apply rename_column_Ok in H1 as (R1 & _).
  destruct (Sqlite.rename_column "Age" "Tm" t1) as [t2|] eqn:H2; [|done].
  apply rename_column_Ok in H2 as (R2 & _).
  destruct (Sqlite.rename_column "Pos" "Age" t2) as [t3|] eqn:H3; [|simpl; congruence].
  apply rename_column_Ok in H3 as (R3 & _). simpl. congruence.
Qed.

Lemma rename_columns_per_off_key t :
  per_off_key t → per_off_key (rename_columns t).1.
Proof.
  unfold rename_columns, per_off_key. intros K.
  destruct (Sqlite.rename_column "player_team" "Position" t) as [t1|] eqn:H1; [|done].
  apply rename_column_Ok in H1 as (_ & _ & _ & _ & K1).
  assert (per_off_key t1) as P1.
  { intros i. rewrite K1 by reflexivity. apply K. }
  destruct (Sqlite.rename_column "Age" "Tm" t1) as [t2|] eqn:H2; [|done].
  apply rename_column_Ok in H2 as (_ & _ & _ & _ & K2).
  assert (per_off_key t2) as P2.
  { intros i. rewrite K2 by reflexivity. apply P1. }
  destruct (Sqlite.rename_column "Pos" "Age" t2) as [t3|] eqn:H3; [|done].
  apply rename_column_Ok in H3 as (_ & _ & _ & _ & K3).
  intros i. simpl. rewrite K3 by reflexivity. apply P2.
Qed.

Lemma rename_columns_Ok t t3 :
  rename_columns t = (t3, Ok tt) →
  ∃ t1 t2,
    Sqlite.rename_column "player_team" "Position" t = Ok t1 ∧
    Sqlite.rename_column "Age" "Tm" t1 = Ok t2 ∧
    Sqlite.rename_column "Pos" "Age" t2 = Ok t3.
Proof.
  unfold rename_columns. intros H.
  destruct (Sqlite.rename_column "player_team" "Position" t) as [t1|] eqn:H1; [|done].
  destruct (Sqlite.rename_column "Age" "Tm" t1) as [t2|] eqn:H2; [|done].
  destruct (Sqlite.rename_column "Pos" "Age" t2) as [t3'|] eqn:H3; [|done].
  inversion H; subst. by exists t1, t2.
Qed.

(** Where the names of the final schema point, in terms of the schema the
    rows were inserted under. *)
Lemma rename_columns_schema t t3 :
  rename_columns t = (t3, Ok tt) →
  rows t3 = rows t ∧
  column_values "Position" t3 = column_values "player_team" t ∧
  column_values "Tm" t3 = column_values "Age" t ∧
  column_values "Age" t3 = column_values "Pos" t ∧
  column_values "player_name" t3 = column_values "player_name" t ∧
  column_values "PER" t3 = column_values "PER" t ∧
  is_Some (column_values "player_team" t) ∧
  is_Some (column_values "Age" t) ∧
  is_Some (column_values "Pos" t).
Proof.
  intros H. pose proof (rename_columns_rows t) as R. rewrite H in R.
  destruct (rename_columns_Ok _ _ H) as (t1 & t2 & H1 & H2 & H3).
  destruct (column_values_renamed _ _ _ _ H1) as [E1 S1].
  destruct (column_values_renamed _ _ _ _ H2) as [E2 S2].
  destruct (column_values_renamed _ _ _ _ H3) as [E3 S3].
  assert (∀ name,
            Sqlite.same_name "Position" name = false →
            Sqlite.same_name "player_team" name = false →
            column_values name t1 = column_values name t) as K1
    by (intros; by eapply column_values_kept).
  assert (∀ name,
            Sqlite.same_name "Tm" name = false →
            Sqlite.same_name "Age" name = false →
            column_values name t2 = column_values name t1) as K2
    by (intros; by eapply column_values_kept).
  assert (∀ name,
            Sqlite.same_name "Age" name = false →
            Sqlite.same_name "Pos" name = false →
            column_values name t3 = column_values name t2) as K3
    by (intros; by eapply column_values_kept).
  split; [done|].
  split. { rewrite K3, K2 by reflexivity. exact E1. }
  split. { rewrite K3 by reflexivity. rewrite E2. by apply K1. }
  split. { rewrite E3, K2 by reflexivity. by apply K1. }
  split. { rewrite K3, K2 by reflexivity. by apply K1. }
  split. { rewrite K3, K2 by reflexivity. by apply K1. }
  split; [done|].
  split. { rewrite <- K1 by reflexivity. done. }
  rewrite <- K1, <- K2 by reflexivity. done.
Qed.

(** ** Creating and filling the table *)

Lemma players_columns_keyed headers :
  Sqlite.column_index "player_name" (players_columns headers) = Some 0%nat ∧
  Sqlite.column_index "player_team" (players_columns headers) = Some 1%nat.
Proof. split; reflexivity. Qed.

(** A name other than those of the identity columns resolves past them. *)
Lemma players_columns_off_key headers name i :
  Sqlite.same_name "player_name" name = false →
  Sqlite.same_name "player_team" name = false →
  Sqlite.column_index name (players_columns headers) = Some i → (2 ≤ i)%nat.
Proof.
  intros Hn Ht. unfold players_columns. simpl. rewrite Hn, Ht.
  destruct (Sqlite.column_index name _); simpl; intros H; inversion H; lia.
Qed.

Lemma players_columns_per_off_key headers i :
  Sqlite.column_index "PER" (players_columns headers) = Some i → (2 ≤ i)%nat.
Proof. by apply players_columns_off_key. Qed.

(** The schema declares the pair (player_name, player_team) as primary key,
    and the table starts empty. *)
Lemma create_players_table_Ok headers t0 :
  create_players_table headers = Ok t0 →
  columns t0 = players_columns headers ∧ primary_key t0 = [0; 1]%nat ∧
  rows t0 = [].
Proof.
  unfold create_players_table. destruct (stat_headers headers) eqn:E; [done|].
  unfold Sqlite.create_table.
  destruct (forallb _ _ && Sqlite.distinct_names _); [|done].
  intros H. change (mapM _ _) with (Ok (A := list nat) [0; 1]%nat) in H.
  by inversion H.
Qed.

Lemma filter_none {A} (p : A → bool) (l : list A) :
  length (List.filter p l) = 0%nat → ∀ x, x ∈ l → p x = false.
Proof.
  induction l as [|a l IH]; simpl; intros H x Hx; [by apply elem_of_nil in Hx|].
  destruct (p a) eqn:Hp; [done|].
  apply elem_of_cons in Hx as [->|Hx]; auto.
Qed.

Lemma identity_player_row name team filled :
  identity (player_row name team filled) = (VText name, VText team).
Proof. reflexivity. Qed.

(** The probe of line 93 counts the stored rows with the identity pair. *)
Lemma probe_counts t name team :
  keyed t →
  Sqlite.count_where "player_name" (VText name) "player_team" (VText team) t
  = Ok (length (List.filter
                  (λ r, Sqlite.eq_value (Sqlite.item r 0) (VText name)
                        && Sqlite.eq_value (Sqlite.item r 1) (VText team))
                  (rows t))).
Proof.
  intros [K0 K1]. unfold Sqlite.count_where, Sqlite.resolve. by rewrite K0, K1.
Qed.

Lemma probe_none t name team :
  keyed t →
  Sqlite.count_where "player_name" (VText name) "player_team" (VText team) t
  = Ok 0%nat →
  ∀ r, r ∈ rows t → identity r ≠ (VText name, VText team).
Proof.
  intros K H r Hr E. rewrite (probe_counts _ _ _ K) in H.
  inversion H as [H0]; clear H.
  apply filter_none with (x := r) in H0; [|done].
  unfold identity in E. inversion E as [[E0 E1]]. rewrite E0, E1 in H0.
  simpl in H0. by rewrite !String.eqb_refl in H0.
Qed.

Lemma insert_Ok r t t' :
  Sqlite.insert r t = Ok t' →
  columns t' = columns t ∧ primary_key t' = primary_key t ∧
  rows t' = rows t ++ [r].
Proof.
  unfold Sqlite.insert. intros H.
  destruct (negb _); [done|]. destruct (existsb _ _); [done|].
  by inversion H.
Qed.

Lemma ingested_cons info player_data row :
  ingested player_data row → ingested (info :: player_data) row.
Proof.
  intros (n & tm & st & Hin & ->). exists n, tm, st. split; [|done].
  apply elem_of_cons; by right.
Qed.

(** The insertion loop, whatever its outcome: it keeps the schema, appends
    only rows made from scraped rows with two leading fields, and never
    appends an identity pair that is already stored. *)
Lemma insert_players_spec player_data : ∀ t t' r,
  insert_players player_data t = (t', r) →
  keyed t →
  columns t' = columns t ∧ primary_key t' = primary_key t ∧
  (∃ added, rows t' = rows t ++ added ∧ Forall (ingested player_data) added) ∧
  (identities_unique t → identities_unique t').
Proof.
  unfold identities_unique.
  induction player_data as [|info rest IH]; intros t t' r H K.
  { inversion H; subst. repeat split; [|done]. exists []. by rewrite app_nil_r. }
  assert (∀ t0, insert_players rest t0 = (t', r) → keyed t0 →
            columns t0 = columns t → primary_key t0 = primary_key t →
            (∃ added0, rows t0 = rows t ++ added0 ∧
                       Forall (ingested (info :: rest)) added0) →
            (NoDup (identity <$> rows t) → NoDup (identity <$> rows t0)) →
            columns t' = columns t ∧ primary_key t' = primary_key t ∧
            (∃ added, rows t' = rows t ++ added ∧
                      Forall (ingested (info :: rest)) added) ∧
            (NoDup (identity <$> rows t) → NoDup (identity <$> rows t'))) as Step.
  { intros t0 H0 K0 C0 P0 (added0 & R0 & F0) N0.
    destruct (IH _ _ _ H0 K0) as (C & P & (added & R & F) & N).
    repeat split; [congruence|congruence| |auto].
    exists (added0 ++ added). split; [by rewrite R, R0, app_assoc|].
    apply Forall_app. split; [done|].
    eapply Forall_impl; [exact F|]. intros. by apply ingested_cons. }
  assert (∃ added0, rows t = rows t ++ added0 ∧
            Forall (ingested (info :: rest)) added0) as Same.
  { exists []. by rewrite app_nil_r. }
  simpl in H.
  destruct info as [|player_name [|player_team player_stats]];
    [by apply (Step t)|by apply (Step t)|].
  destruct (Sqlite.count_where _ _ _ _ t) as [n|e] eqn:Hc.
  2:{ inversion H; subst. by repeat split. }
  destruct n as [|n]; simpl in H; [|by apply (Step t)].
  destruct (Sqlite.insert _ t) as [t1|e] eqn:Hi.
  2:{ inversion H; subst. by repeat split. }
  apply insert_Ok in Hi as (C1 & P1 & R1).
  apply (Step t1); [done| |done|done| |].
  - destruct K. split; by rewrite C1.
  - eexists. split; [exact R1|]. apply Forall_singleton.
    exists player_name, player_team, player_stats. split; [|done].
    apply elem_of_cons; by left.
  - intros ND. rewrite R1, fmap_app. apply NoDup_app. split; [done|].
    split; [|apply NoDup_singleton].
    intros x Hx Hx'. apply list_elem_of_singleton in Hx'. subst x.
    apply list_elem_of_fmap in Hx as (r0 & E & Hr0).
    eapply (probe_none t); eauto.
Qed.

(** A row with fewer than two fields adds nothing. *)
Lemma insert_players_short info rest t :
  (length info < 2)%nat →
  insert_players (info :: rest) t = insert_players rest t.
Proof. destruct info as [|? [|? ?]]; simpl; [done|done|lia]. Qed.

(** When the probe finds the identity pair, the row is skipped. *)
Lemma insert_players_present name team player_stats rest t n :
  Sqlite.count_where "player_name" (VText name) "player_team" (VText team) t
  = Ok (S n) →
  insert_players ((name :: team :: player_stats) :: rest) t
  = insert_players rest t.
Proof. intros H. simpl. by rewrite H. Qed.

(** What [populate] leaves in the file, whatever its outcome. *)
Lemma populate_spec headers player_data db r :
  populate headers player_data = (db, r) →
  match db with
  | None => True
  | Some t =>
      identities_unique t ∧ per_off_key t ∧ Forall (ingested player_data) (rows t)
  end.
Proof.
  unfold populate. intros H.
  destruct (create_players_table headers) as [t0|e] eqn:Hc;
    [|by inversion H].
  apply create_players_table_Ok in Hc as (C0 & P0 & R0).
  assert (keyed t0) as K0 by (unfold keyed; rewrite C0; apply players_columns_keyed).
  destruct (insert_players player_data t0) as [t1 r1] eqn:Hi.
  apply insert_players_spec in Hi as (C1 & P1 & (added & R1 & F1) & N1); [|done].
  rewrite R0 in R1. simpl in R1. rewrite <- R1 in F1. clear added R1.
  assert (identities_unique t1) as U1.
  { apply N1. unfold identities_unique. rewrite R0. constructor. }
  assert (per_off_key t1) as O1.
  { intros i. rewrite C1, C0. apply players_columns_per_off_key. }
  destruct r1 as [[]|e].
  - destruct (rename_columns t1) as [t3 r3] eqn:Hr. inversion H; subst.
    pose proof (rename_columns_rows t1) as R3.
    pose proof (rename_columns_per_off_key t1 O1) as O3.
    rewrite Hr in R3, O3. simpl in R3, O3.
    unfold identities_unique. rewrite R3. by repeat split.
  - inversion H; subst. by repeat split.
Qed.

(** A run that goes through, on a season without a store. *)
Lemma create_nba_database_Ok headers player_data year fs fs' :
  fs !! year = None →
  create_nba_database headers player_data year fs = (fs', Ok tt) →
  ∃ t0 t t3,
    create_players_table headers = Ok t0 ∧
    insert_players player_data t0 = (t, Ok tt) ∧
    rename_columns t = (t3, Ok tt) ∧
    fs' = <[year := Some t3]> fs.
Proof.
  unfold create_nba_database, populate. intros -> H.
  destruct (create_players_table headers) as [t0|e] eqn:H0; [|by inversion H].
  destruct (insert_players player_data t0) as [t1 [[]|e]] eqn:H1;
    [|by inversion H].
  destruct (rename_columns t1) as [t3 [[]|e]] eqn:H3; inversion H; subst.
  by exists t0, t1, t3.
Qed.

Lemma rename_columns_index t t3 :
  rename_columns t = (t3, Ok tt) →
  Sqlite.column_index "Position" (columns t3)
  = Sqlite.column_index "player_team" (columns t) ∧
  Sqlite.column_index "player_name" (columns t3)
  = Sqlite.column_index "player_name" (columns t) ∧
  Sqlite.column_index "PER" (columns t3) = Sqlite.column_index "PER" (columns t) ∧
  Sqlite.column_index "Age" (columns t3) = Sqlite.column_index "Pos" (columns t) ∧
  Sqlite.column_index "Tm" (columns t3) = Sqlite.column_index "Age" (columns t) ∧
  is_Some (Sqlite.column_index "Pos" (columns t)).
Proof.
  intros H. destruct (rename_columns_Ok _ _ H) as (t1 & t2 & H1 & H2 & H3).
  apply rename_column_Ok in H1 as (_ & _ & E1 & _ & K1).
  apply rename_column_Ok in H2 as (_ & _ & E2 & _ & K2).
  apply rename_column_Ok in H3 as (_ & _ & E3 & S3 & K3).
  repeat split.
  - rewrite K3, K2 by reflexivity. exact E1.
  - rewrite K3, K2 by reflexivity. by apply K1.
  - rewrite K3, K2 by reflexivity. by apply K1.
  - rewrite E3, K2 by reflexivity. by apply K1.
  - rewrite K3 by reflexivity. rewrite E2. by apply K1.
  - rewrite K2, K1 in S3 by reflexivity. exact S3.
Qed.

Lemma column_index_last name a cols :
  is_Some (Sqlite.column_index name (cols ++ [(name, a)])).
Proof.
  induction cols as [|[c a'] rest IH]; simpl.
  - unfold Sqlite.same_name. rewrite String.eqb_refl. eauto.
  - destruct (Sqlite.same_name c name); [eauto|].
    destruct IH as [i Hi]. exists (S i).
    exact (f_equal (fmap S) Hi).
Qed.

Lemma players_columns_PER headers :
  is_Some (Sqlite.column_index "PER" (players_columns headers)).
Proof.
  destruct (column_index_last "PER" REAL
              ((λ header, (header, TEXT)) <$> stat_headers headers)) as [i Hi].
  exists (S (S i)). unfold players_columns.
  exact (f_equal (fmap S) (f_equal (fmap S) Hi)).
Qed.

(** ** The renames (C3) *)

(** C3.  When [create_nba_database] creates the store of a season, it ends
    with three renames executed one after the other in the order
    player_team to Position, Age to Tm, Pos to Age.  In the final schema the
    column named Position holds the values inserted under player_team (the
    team column), the column named Tm those inserted under Age, and the
    column named Age those inserted under Pos. *)
Theorem create_nba_database_renames headers player_data year fs fs' :
  fs !! year = None →
  create_nba_database headers player_data year fs = (fs', Ok tt) →
  ∃ t0 t t1 t2 t3,
    create_players_table headers = Ok t0 ∧
    insert_players player_data t0 = (t, Ok tt) ∧
    Sqlite.rename_column "player_team" "Position" t = Ok t1 ∧
    Sqlite.rename_column "Age" "Tm" t1 = Ok t2 ∧
    Sqlite.rename_column "Pos" "Age" t2 = Ok t3 ∧
    fs' !! year = Some (Some t3) ∧
    rows t3 = rows t ∧
    column_values "Position" t3 = column_values "player_team" t ∧
    column_values "Tm" t3 = column_values "Age" t ∧
    column_values "Age" t3 = column_values "Pos" t ∧
    is_Some (column_values "player_team" t) ∧
    is_Some (column_values "Age" t) ∧
    is_Some (column_values "Pos" t).
Proof.
  intros Hnone H.
  destruct (create_nba_database_Ok _ _ _ _ _ Hnone H) as (t0 & t & t3 & H0 & Hi & Hr & ->).
  destruct (rename_columns_Ok _ _ Hr) as (t1 & t2 & H1 & H2 & H3).
  destruct (rename_columns_schema _ _ Hr) as (R & P & T & A & _ & _ & S1 & S2 & S3).
  exists t0, t, t1, t2, t3. rewrite lookup_insert_eq. by repeat split.
Qed.

Lemma create_nba_database_renames_witness :
  ∃ t0 t t1 t2 t3,
    create_players_table Sample.headers = Ok t0 ∧
    insert_players Sample.player_data t0 = (t, Ok tt) ∧
    Sqlite.rename_column "player_team" "Position" t = Ok t1 ∧
    Sqlite.rename_column "Age" "Tm" t1 = Ok t2 ∧
    Sqlite.rename_column "Pos" "Age" t2 = Ok t3 ∧
    Sample.stored !! 2024%Z = Some (Some t3) ∧
    rows t3 = rows t ∧
    column_values "Position" t3 = column_values "player_team" t ∧
    column_values "Tm" t3 = column_values "Age" t ∧
    column_values "Age" t3 = column_values "Pos" t ∧
    is_Some (column_values "player_team" t) ∧
    is_Some (column_values "Age" t) ∧
    is_Some (column_values "Pos" t).
Proof.
  apply (create_nba_database_renames Sample.headers Sample.player_data 2024%Z ∅).
  - reflexivity.
  - vm_compute. reflexivity.
Defined.

(** On the sample page, whose header row reads Player, Pos, Age, Tm, the
    cells end up under these names. *)
Example sample_final_columns :
  column_values "Position" Sample.players = Some [VText "PG"; VText "SF"]
  ∧ column_values "Tm" Sample.players = Some [VText "BOS"; VText "DEN"]
  ∧ column_values "Age" Sample.players = Some [VText "27"; VText "24"].
Proof. repeat split; vm_compute; reflexivity. Qed.

(** Run in another order, the renames do not go through: Age is still taken
    when Pos is to be renamed first. *)
Example renames_out_of_order :
  ∃ t, insert_players Sample.player_data
         (match create_players_table Sample.headers with
          | Ok t0 => t0
          | Fault _ => Sample.players
          end) = (t, Ok tt)
       ∧ Sqlite.rename_column "Pos" "Age" t = Fault OperationalError.
Proof. eexists. split; vm_compute; reflexivity. Qed.

(** ** Rows with fewer than two fields (C8) *)

Lemma scrape_nba_player_data_Ok page table headers player_data :
  per_game_stats page = Some table →
  scrape_nba_player_data page = Ok (headers, player_data) →
  player_data = findAll_td <$> drop 1 table.
Proof.
  unfold scrape_nba_player_data. intros -> H.
  destruct (take 2 table) as [|first ?]; [done|].
  destruct (mapM sanitize_header _) as [hs|e]; simpl in H; by inversion H.
Qed.

(** C8, as stated, fails: the scraper returns the rows of the sample page
    with the repeated header row among them, as a row without fields. *)
Lemma scrape_keeps_short_rows :
  ¬ (∀ page headers player_data,
       scrape_nba_player_data page = Ok (headers, player_data) →
       Forall (λ player_info, (2 ≤ length player_info)%nat) player_data).
Proof.
  intros H.
  specialize (H Sample.page Sample.headers Sample.player_data eq_refl).
  apply Forall_cons in H as [_ H]. apply Forall_cons in H as [H _].
  vm_compute in H. lia.
Qed.

(** C8, amended.  [scrape_nba_player_data] returns the data cells of every
    table row after the first, short rows included; the rows with fewer than
    two fields are skipped by the insertion loop of [create_nba_database], so
    that every row of a store it creates was made from a scraped row with its
    two leading fields. *)
Theorem short_rows_skipped_at_insertion :
  (∀ page table headers player_data,
     per_game_stats page = Some table →
     scrape_nba_player_data page = Ok (headers, player_data) →
     player_data = findAll_td <$> drop 1 table)
  ∧ (∀ player_info rest t,
       (length player_info < 2)%nat →
       insert_players (player_info :: rest) t = insert_players rest t)
  ∧ (∀ headers player_data year fs t row,
       fs !! year = None →
       (create_nba_database headers player_data year fs).1 !! year = Some (Some t) →
       row ∈ rows t →
       ∃ player_name player_team player_stats,
         (player_name :: player_team :: player_stats) ∈ player_data ∧
         row = player_row player_name player_team (fill_missing player_stats)).
Proof.
  split; [exact scrape_nba_player_data_Ok|].
  split; [exact insert_players_short|].
  intros headers player_data year fs t row Hnone Ht Hrow.
  unfold create_nba_database in Ht. rewrite Hnone in Ht.
  destruct (populate headers player_data) as [db r] eqn:Hp.
  simpl in Ht. rewrite lookup_insert_eq in Ht. inversion Ht; subst.
  apply populate_spec in Hp as (_ & _ & F).
  rewrite Forall_forall in F. by apply F.
Qed.

Lemma short_rows_skipped_at_insertion_witness :
  ∃ player_name player_team player_stats,
    (player_name :: player_team :: player_stats) ∈ Sample.player_data ∧
    Sample.guard_record
    = player_row player_name player_team (fill_missing player_stats).
Proof.
  apply (proj2 (proj2 short_rows_skipped_at_insertion)
           Sample.headers Sample.player_data 2024%Z ∅ Sample.players).
  - reflexivity.
  - vm_compute. reflexivity.
  - vm_compute. apply elem_of_cons. by left.
Defined.

(** ** Writing the rating back *)

Lemma update_where_Ok target v c1 v1 c2 v2 t t' :
  Sqlite.update_where target v c1 v1 c2 v2 t = Ok t' →
  ∃ it i1 i2,
    Sqlite.column_index target (columns t) = Some it ∧
    Sqlite.column_index c1 (columns t) = Some i1 ∧
    Sqlite.column_index c2 (columns t) = Some i2 ∧
    t' = {| columns := columns t; primary_key := primary_key t;
            rows := (λ r, if Sqlite.eq_value (Sqlite.item r i1) v1
                             && Sqlite.eq_value (Sqlite.item r i2) v2
                          then <[it := v]> r else r) <$> rows t |}.
Proof.
  unfold Sqlite.update_where, Sqlite.resolve. intros H.
  destruct (Sqlite.column_index target (columns t)) as [it|]; [|done].
  destruct (Sqlite.column_index c1 (columns t)) as [i1|]; [|done].
  destruct (Sqlite.column_index c2 (columns t)) as [i2|]; [|done].
  simpl in H. inversion H. by exists it, i1, i2.
Qed.

Lemma identity_insert i v r : (2 ≤ i)%nat → identity (<[i := v]> r) = identity r.
Proof.
  intros Hi. unfold identity, Sqlite.item.
  by rewrite !list_lookup_insert_ne by lia.
Qed.

(** One write-back keeps the schema and every identity pair. *)
Lemma update_PER_keeps PER player_record t t' :
  update_PER PER player_record t = Ok t' →
  per_off_key t →
  columns t' = columns t ∧ identity <$> rows t' = identity <$> rows t.
Proof.
  unfold update_PER. intros H K.
  destruct (py_getitem player_record 0) as [name|]; [|done].
  destruct (py_getitem player_record 1) as [position|]; [|done].
  simpl in H. apply update_where_Ok in H as (it & i1 & i2 & Ht & _ & _ & ->).
  simpl. split; [done|]. rewrite <- list_fmap_compose.
  apply list_fmap_ext. intros _ r _. simpl.
  destruct (_ && _); [|done]. apply identity_insert. by apply K.
Qed.

Section Loop.

Variable float_of_str : string → option float.

Lemma update_records_keeps player_records : ∀ t,
  per_off_key t →
  columns (update_records float_of_str player_records t).1 = columns t ∧
  identity <$> rows (update_records float_of_str player_records t).1
  = identity <$> rows t.
Proof.
  induction player_records as [|player_record rest IH]; intros t K; [done|].
  simpl. destruct (PER_of_record float_of_str player_record) as [PER|]; [|done].
  destruct (update_PER PER player_record t) as [t'|] eqn:Hu; [|done].
  apply update_PER_keeps in Hu as [C I]; [|done].
  assert (per_off_key t') as K' by (unfold per_off_key; by rewrite C).
  destruct (IH t' K') as [C' I']. split; congruence.
Qed.

Lemma PER_calculator_invariant web year fs :
  map_Forall (λ _, store_invariant) fs →
  map_Forall (λ _, store_invariant) (PER_calculator float_of_str web year fs).1.
Proof.
  intros Inv. unfold PER_calculator.
  destruct (scrape_nba_player_data (web year)) as [[headers player_data]|];
    [|done].
  destruct (fs !! year) as [[t|]|] eqn:Hy; simpl; [|done|].
  - destruct (update_records float_of_str (rows t) t) as [t' r] eqn:Hu.
    simpl. apply map_Forall_insert_2; [|done].
    destruct (Inv _ _ Hy) as [U K].
    destruct (update_records_keeps (rows t) t K) as [C I].
    rewrite Hu in C, I. simpl in C, I. split.
    + unfold identities_unique in *. by rewrite I.
    + unfold per_off_key. by rewrite C.
  - by apply map_Forall_insert_2.
Qed.

Lemma create_nba_database_invariant headers player_data year fs :
  map_Forall (λ _, store_invariant) fs →
  map_Forall (λ _, store_invariant)
    (create_nba_database headers player_data year fs).1.
Proof.
  intros Inv. unfold create_nba_database.
  destruct (fs !! year) eqn:Hy; [done|].
  destruct (populate headers player_data) as [db r] eqn:Hp. simpl.
  apply map_Forall_insert_2; [|done].
  apply populate_spec in Hp. destruct db as [t|]; [|done].
  destruct Hp as (U & K & _). by split.
Qed.

Lemma reachable_invariant fs :
  reachable float_of_str fs → map_Forall (λ _, store_invariant) fs.
Proof.
  induction 1 as [|headers player_data year fs _ IH|web year fs _ IH].
  - apply map_Forall_empty.
  - by apply create_nba_database_invariant.
  - by apply PER_calculator_invariant.
Qed.

End Loop.

Lemma filter_some {A} (p : A → bool) (l : list A) x :
  x ∈ l → p x = true → ∃ n, length (List.filter p l) = S n.
Proof.
  induction l as [|a l IH]; intros Hx Hp; [by apply elem_of_nil in Hx|].
  simpl. destruct (p a) eqn:Hpa; [simpl; eauto|].
  apply elem_of_cons in Hx as [->|Hx]; [congruence|auto].
Qed.

(** ** Unique identity pairs (C5) *)

(** C5.  In every directory the program can leave behind, and so after any
    run of [create_nba_database], no two rows of a store share the identity
    pair (player_name, team).  The schema declares the two identity columns
    as the primary key, and the insertion loop skips a scraped row whose
    identity pair is already stored. *)
Theorem identity_pairs_unique :
  (∀ float_of_str fs headers player_data year season t,
     reachable float_of_str fs →
     (create_nba_database headers player_data year fs).1 !! season = Some (Some t) →
     NoDup (identity <$> rows t))
  ∧ (∀ headers t0,
       create_players_table headers = Ok t0 →
       primary_key t0 = [0; 1]%nat ∧
       columns t0 !! 0%nat = Some ("player_name", TEXT) ∧
       columns t0 !! 1%nat = Some ("player_team", TEXT))
  ∧ (∀ t r player_name player_team player_stats rest,
       keyed t → r ∈ rows t →
       identity r = (VText player_name, VText player_team) →
       insert_players ((player_name :: player_team :: player_stats) :: rest) t
       = insert_players rest t).
Proof.
  split; [|split].
  - intros float_of_str fs headers player_data year season t Hreach Ht.
    pose proof (reachable_create _ headers player_data year _ Hreach) as Hreach'.
    apply reachable_invariant in Hreach'.
    by destruct (Hreach' _ _ Ht) as [U _].
  - intros headers t0 H.
    apply create_players_table_Ok in H as (C & P & _). by rewrite C.
  - intros t r name team player_stats rest K Hr Hid.
    destruct (filter_some
                (λ r, Sqlite.eq_value (Sqlite.item r 0) (VText name)
                      && Sqlite.eq_value (Sqlite.item r 1) (VText team))
                (rows t) r Hr) as [n Hn].
    { unfold identity in Hid. inversion Hid as [[E0 E1]]. rewrite E0, E1.
      simpl. by rewrite !String.eqb_refl. }
    apply (insert_players_present _ _ _ _ _ n).
    rewrite (probe_counts _ _ _ K). by rewrite Hn.
Qed.

Lemma identity_pairs_unique_witness :
  NoDup (identity <$> rows Sample.players).
Proof.
  apply (proj1 identity_pairs_unique Decimal.float_of_str ∅
           Sample.headers Sample.player_data 2024%Z 2024%Z Sample.players).
  - constructor.
  - vm_compute. reflexivity.
Defined.

(** The sample page lists one player twice; the store holds that player once. *)
Example sample_duplicate_skipped :
  length Sample.player_data = 4%nat ∧ length (rows Sample.players) = 2%nat.
Proof. split; vm_compute; reflexivity. Qed.

(** ** The names of the columns on the page's layout *)

(** On a page whose header row reads, after the rank, Player, Pos, Age, Tm,
    the three renames make the names agree with the page: a stored row is
    [player_row] of the scraped fields in page order, and the names Position,
    Age and Tm resolve to the positions where the page has the labels Pos,
    Age and Tm. *)
Lemma renames_match_page_labels more player_data year fs fs' t :
  fs !! year = None →
  create_nba_database ("Player" :: "Pos" :: "Age" :: "Tm" :: more)
    player_data year fs = (fs', Ok tt) →
  fs' !! year = Some (Some t) →
  Sqlite.column_index "Position" (columns t) = Some 1%nat
  ∧ Sqlite.column_index "Age" (columns t) = Some 2%nat
  ∧ Sqlite.column_index "Tm" (columns t) = Some 3%nat
  ∧ Forall (ingested player_data) (rows t).
Proof.
  intros Hnone H Ht.
  destruct (create_nba_database_Ok _ _ _ _ _ Hnone H)
    as (t0 & t1 & t3 & H0 & Hi & Hr & ->).
  rewrite lookup_insert_eq in Ht. inversion Ht; subst t3; clear Ht.
  apply create_players_table_Ok in H0 as (C0 & P0 & R0).
  assert (keyed t0) as K0 by (unfold keyed; rewrite C0; apply players_columns_keyed).
  apply insert_players_spec in Hi as (C1 & P1 & (added & R1 & F1) & _); [|done].
  rewrite R0 in R1. simpl in R1. rewrite <- R1 in F1. clear added R1.
  destruct (rename_columns_index _ _ Hr) as (IP & _ & _ & IA & IT & _).
  pose proof (rename_columns_rows t1) as RR. rewrite Hr in RR. simpl in RR.
  rewrite C1, C0 in IP, IA, IT. rewrite RR. by repeat split.
Qed.

Lemma NoDup_fmap_inj {A B} (f : A → B) (l : list A) x y :
  NoDup (f <$> l) → x ∈ l → y ∈ l → f x = f y → x = y.
Proof.
  induction l as [|a l IH]; intros ND Hx Hy E; [by apply elem_of_nil in Hx|].
  rewrite fmap_cons in ND. apply NoDup_cons in ND as [Ha ND].
  apply elem_of_cons in Hx as [->|Hx]; apply elem_of_cons in Hy as [->|Hy];
    [done| | |by apply IH].
  - exfalso. apply Ha. rewrite E. apply list_elem_of_fmap. eauto.
  - exfalso. apply Ha. rewrite <- E. apply list_elem_of_fmap. eauto.
Qed.

(** With unique identity pairs, the predicate of the write-back selects the
    record being processed and no other stored row. *)
Lemma update_selects_own_row player_data t r record :
  identities_unique t → Forall (ingested player_data) (rows t) →
  r ∈ rows t → record ∈ rows t →
  same_identity r record = true → r = record.
Proof.
  intros U F Hr Hrec Hsame. rewrite Forall_forall in F.
  apply (NoDup_fmap_inj identity (rows t)); try done.
  destruct (F _ Hr) as (n & tm & st & _ & ->).
  destruct (F _ Hrec) as (n' & tm' & st' & _ & ->).
  rewrite !identity_player_row.
  unfold same_identity in Hsame. simpl in Hsame.
  apply andb_prop in Hsame as [->%String.eqb_eq ->%String.eqb_eq]. done.
Qed.

(** ** Float arithmetic *)

Lemma float_mul_comm (x y : float) : (x * y)%float = (y * x)%float.
Proof.
  apply Prim2SF_inj. rewrite !mul_spec. unfold SF64mul, SFmul.
  destruct (Prim2SF x) as [sx|sx| |sx mx ex], (Prim2SF y) as [sy|sy| |sy my ey];
    try reflexivity; try (by rewrite xorb_comm).
  by rewrite xorb_comm, Pos.mul_comm, Z.add_comm.
Qed.

Lemma positive_nonzero (m : float) :
  PrimFloat.ltb 0 m = true → PrimFloat.eqb m 0 = false.
Proof.
  rewrite FloatAxioms.ltb_spec, FloatAxioms.eqb_spec. unfold SFltb, SFeqb.
  destruct (Prim2SF m) as [[|]|[|]| |[|] mm e]; simpl; congruence.
Qed.

(** The program's formula computes the score in the specification's
    grouping, whenever the divisor is not zero. *)
Lemma PER_formula_score s :
  PrimFloat.eqb (minutes_played s) 0 = false →
  PER_formula s = Ok (score_as_specified s).
Proof.
  intros Hm. unfold PER_formula, py_truediv. rewrite Hm. simpl.
  unfold score_as_specified.
  by rewrite (float_mul_comm 2 (steals s)), (float_mul_comm 2 (blocks s)),
       (float_mul_comm 2 (three_pointers_made s)),
       (float_mul_comm 2 (turnovers s)).
Qed.

Lemma PER_formula_zero s :
  PrimFloat.eqb (minutes_played s) 0 = true →
  PER_formula s = Fault ZeroDivisionError.
Proof. intros Hm. unfold PER_formula, py_truediv. by rewrite Hm. Qed.

Section Records.

Variable float_of_str : string → option float.
Variable player_record : list value.

Local Abbreviation field_is i x := (field float_of_str player_record i = Ok x).

(** The conversions of lines 138-150 pair each local variable with a
    position of the fetched row. *)
Lemma extract_stats_Ok s :
  extract_stats float_of_str player_record = Ok s ↔
  field_is 6 (minutes_played s) ∧ field_is 28 (points s)
  ∧ field_is 23 (assists s) ∧ field_is 21 (defensive_rebounds s)
  ∧ field_is 20 (offensive_rebounds s) ∧ field_is 24 (steals s)
  ∧ field_is 25 (blocks s) ∧ field_is 13 (two_pointers_made s)
  ∧ field_is 10 (three_pointers_made s)
  ∧ field_is 14 (two_pointers_attempted s)
  ∧ field_is 11 (three_pointers_attempted s)
  ∧ field_is 26 (turnovers s) ∧ field_is 27 (personal_fouls s).
Proof.
  unfold extract_stats. split.
  - intros H.
    repeat match type of H with
           | context [field float_of_str player_record ?i] =>
               destruct (field float_of_str player_record i);
               simpl in H; [|discriminate]
           end.
    inversion H; subst. simpl. by repeat split.
  - intros (H6 & H28 & H23 & H21 & H20 & H24 & H25 & H13 & H10 & H14
            & H11 & H26 & H27).
    rewrite H6, H28, H23, H21, H20, H24, H25, H13, H10, H14, H11, H26, H27.
    simpl. by destruct s.
Qed.

Lemma extract_stats_parse M :
  field_is 6 M →
  fields_parse float_of_str player_record other_fields = true →
  ∃ s, extract_stats float_of_str player_record = Ok s ∧ minutes_played s = M.
Proof.
  intros H6 Hp. unfold fields_parse, other_fields in Hp.
  unfold extract_stats. rewrite H6.
  cbn [forallb] in Hp.
  repeat match type of Hp with
         | context [field float_of_str player_record ?i] =>
             destruct (field float_of_str player_record i);
             cbn [is_ok andb] in Hp; [|discriminate]
         end.
  simpl. eauto.
Qed.

End Records.

(** ** The score (C1) *)

(** C1.  For a stored record whose thirteen statistical fields convert to
    floats, with minutes played M positive, [PER_calculator] computes
    (points + assists + defReb/2 + offReb + 2*steals + 2*blocks + made2
    + 2*made3) - ((att2/2 + att3 + 2*turnovers + fouls/3) / M): only the
    penalty subtotal is divided by M.  On the inputs 20, 5, 4, 2, 1, 1, 6, 2,
    10, 5, 2, 3 in 30 minutes the score is 42.5. *)
Theorem PER_of_record_score :
  (∀ float_of_str player_record s,
     field float_of_str player_record 6 = Ok (minutes_played s) →
     field float_of_str player_record 28 = Ok (points s) →
     field float_of_str player_record 23 = Ok (assists s) →
     field float_of_str player_record 21 = Ok (defensive_rebounds s) →
     field float_of_str player_record 20 = Ok (offensive_rebounds s) →
     field float_of_str player_record 24 = Ok (steals s) →
     field float_of_str player_record 25 = Ok (blocks s) →
     field float_of_str player_record 13 = Ok (two_pointers_made s) →
     field float_of_str player_record 10 = Ok (three_pointers_made s) →
     field float_of_str player_record 14 = Ok (two_pointers_attempted s) →
     field float_of_str player_record 11 = Ok (three_pointers_attempted s) →
     field float_of_str player_record 26 = Ok (turnovers s) →
     field float_of_str player_record 27 = Ok (personal_fouls s) →
     PrimFloat.ltb 0 (minutes_played s) = true →
     PER_of_record float_of_str player_record = Ok (score_as_specified s))
  ∧ PER_formula Sample.guard_stats = Ok 42.5%float
  ∧ score_as_specified Sample.guard_stats = 42.5%float.
Proof.
  split; [|split; vm_compute; reflexivity].
  intros float_of_str player_record s
    H6 H28 H23 H21 H20 H24 H25 H13 H10 H14 H11 H26 H27 Hpos.
  unfold PER_of_record.
  rewrite (proj2 (extract_stats_Ok float_of_str player_record s)) by done.
  simpl. apply PER_formula_score. by apply positive_nonzero.
Qed.

Lemma PER_of_record_score_witness :
  PER_of_record Decimal.float_of_str Sample.guard_record = Ok 42.5%float.
Proof.
  change (Ok 42.5%float) with (Ok (score_as_specified Sample.guard_stats)).
  apply (proj1 PER_of_record_score Decimal.float_of_str Sample.guard_record
           Sample.guard_stats); vm_compute; reflexivity.
Defined.

(** Dividing the whole difference by the minutes gives another number. *)
Example division_not_of_the_difference :
  let s := Sample.guard_stats in
  ((points s + assists s + defensive_rebounds s / 2 + offensive_rebounds s
    + 2 * steals s + 2 * blocks s + two_pointers_made s
    + 2 * three_pointers_made s
    - (two_pointers_attempted s / 2 + three_pointers_attempted s
       + 2 * turnovers s + personal_fouls s / 3)) / minutes_played s)%float
  ≠ 42.5%float.
Proof. vm_compute. intros H. discriminate (f_equal (PrimFloat.eqb 42.5) H). Qed.

(** ** Zero minutes (C4) *)

(** C4.  For a stored record whose minutes-played field is 0, the rating
    computation of [PER_calculator] yields no value: with the other twelve
    fields converting to floats it raises the division fault, which nothing
    in the loop catches, so the run stops at that record.  For minutes other
    than 0 the division goes through. *)
Theorem zero_minutes_division_fault float_of_str player_record M :
  field float_of_str player_record 6 = Ok M →
  (PrimFloat.eqb M 0 = true →
     (∀ PER, PER_of_record float_of_str player_record ≠ Ok PER)
     ∧ (fields_parse float_of_str player_record other_fields = true →
          PER_of_record float_of_str player_record = Fault ZeroDivisionError
          ∧ ∀ rest t,
              update_records float_of_str (player_record :: rest) t
              = (t, Fault ZeroDivisionError)))
  ∧ (PrimFloat.eqb M 0 = false →
       fields_parse float_of_str player_record other_fields = true →
       ∃ PER, PER_of_record float_of_str player_record = Ok PER).
Proof.
  intros H6. split.
  - intros Hz. split.
    + intros PER H. unfold PER_of_record in H.
      destruct (extract_stats float_of_str player_record) as [s|] eqn:E; [|done].
      apply extract_stats_Ok in E as (E6 & _). rewrite H6 in E6.
      inversion E6; subst M. simpl in H. by rewrite PER_formula_zero in H.
    + intros Hp.
      destruct (extract_stats_parse _ _ _ H6 Hp) as (s & E & <-).
      assert (PER_of_record float_of_str player_record = Fault ZeroDivisionError)
        as HF.
      { unfold PER_of_record. rewrite E. simpl. by apply PER_formula_zero. }
      split; [done|]. intros rest t. simpl. by rewrite HF.
  - intros Hnz Hp.
    destruct (extract_stats_parse _ _ _ H6 Hp) as (s & E & <-).
    exists (score_as_specified s). unfold PER_of_record. rewrite E. simpl.
    by apply PER_formula_score.
Qed.

Lemma zero_minutes_division_fault_witness :
  PER_of_record Decimal.float_of_str Sample.bench_record = Fault ZeroDivisionError
  ∧ ∃ PER, PER_of_record Decimal.float_of_str Sample.guard_record = Ok PER.
Proof.
  split.
  - apply (proj1 (zero_minutes_division_fault Decimal.float_of_str
                    Sample.bench_record 0%float eq_refl));
      vm_compute; reflexivity.
  - apply (proj2 (zero_minutes_division_fault Decimal.float_of_str
                    Sample.guard_record 30%float eq_refl));
      vm_compute; reflexivity.
Defined.

(** A whole run over a page with a player who never took the floor stops
    with the division fault. *)
Example main_stops_at_zero_minutes :
  (main Decimal.float_of_str (λ _, Sample.page_with_bench) ∅).2
  = Fault ZeroDivisionError.
Proof. vm_compute. reflexivity. Qed.

(** ** The re-fetched page (C10) *)

(** C10.  The ratings that [PER_calculator] writes are determined by the rows
    stored for the season: the headers and rows it re-fetches are not read
    again, so two executions over the same store, with any two pages that
    scrape, end in the same store with the same outcome. *)
Theorem PER_ignores_refetch float_of_str web web' year fs :
  is_ok (scrape_nba_player_data (web year)) = true →
  is_ok (scrape_nba_player_data (web' year)) = true →
  PER_calculator float_of_str web year fs
  = PER_calculator float_of_str web' year fs
  ∧ ∀ t, fs !! year = Some (Some t) →
      PER_calculator float_of_str web year fs
      = (<[year := Some (update_records float_of_str (rows t) t).1]> fs,
         (update_records float_of_str (rows t) t).2).
Proof.
  unfold PER_calculator. intros H H'.
  destruct (scrape_nba_player_data (web year)) as [[headers player_data]|];
    [|done].
  destruct (scrape_nba_player_data (web' year)) as [[headers' player_data']|];
    [|done].
  split; [done|]. intros t ->.
  by destruct (update_records float_of_str (rows t) t).
Qed.

Lemma PER_ignores_refetch_witness :
  PER_calculator Decimal.float_of_str (λ _, Sample.page) 2024 Sample.stored
  = PER_calculator Decimal.float_of_str (λ _, Sample.page_with_bench) 2024
      Sample.stored.
Proof.
  refine (proj1 (PER_ignores_refetch Decimal.float_of_str
                   (λ _, Sample.page) (λ _, Sample.page_with_bench) 2024%Z
                   Sample.stored _ _));
    vm_compute; reflexivity.
Defined.

(** ** The games filter (C9) *)

Lemma column_index_lookup name cols i :
  Sqlite.column_index name cols = Some i →
  ∃ c a, cols !! i = Some (c, a) ∧ Sqlite.same_name c name = true.
Proof.
  revert i. induction cols as [|[c a] rest IH]; intros i H; [done|].
  simpl in H. destruct (Sqlite.same_name c name) eqn:Hc.
  - inversion H; subst. by exists c, a.
  - destruct (Sqlite.column_index name rest) as [j|]; [|done].
    inversion H; subst. by apply IH.
Qed.

Lemma players_columns_text headers : text_but_PER (players_columns headers).
Proof.
  unfold text_but_PER, players_columns.
  repeat (apply Forall_cons; split; [done|]).
  apply Forall_app. split.
  - apply Forall_fmap. by apply Forall_true.
  - by apply Forall_singleton.
Qed.

Lemma rename_column_text old new t t' :
  Sqlite.same_name old "PER" = false →
  Sqlite.rename_column old new t = Ok t' →
  text_but_PER (columns t) → text_but_PER (columns t').
Proof.
  unfold Sqlite.rename_column, Sqlite.resolve, text_but_PER. intros Hold H F.
  destruct (Sqlite.column_index old (columns t)) as [i|] eqn:Hi; [|done].
  simpl in H. destruct (existsb _ _); [done|]. inversion H; subst; clear H.
  simpl. destruct (column_index_lookup _ _ _ Hi) as (c & a & Hl & Hc).
  apply Forall_alter; [done|]. intros [c' a'] Hl' _. simpl.
  rewrite Hl in Hl'. inversion Hl'; subst c' a'. intros ->.
  assert (Sqlite.same_name c "PER" = true) as HP.
  { rewrite Forall_lookup in F. by apply (F _ _ Hl). }
  apply same_name_spec in HP. apply same_name_spec in Hc.
  assert (Sqlite.same_name old "PER" = true) as Contra
    by (apply same_name_spec; congruence).
  congruence.
Qed.

(** In a store created by [create_nba_database], the games column is text. *)
Lemma created_store_G_text headers player_data year fs fs' t :
  fs !! year = None →
  create_nba_database headers player_data year fs = (fs', Ok tt) →
  fs' !! year = Some (Some t) →
  is_Some (Sqlite.column_index "G" (columns t)) →
  column_affinity "G" t = Some TEXT.
Proof.
  intros Hnone H Ht [i Hi].
  destruct (create_nba_database_Ok _ _ _ _ _ Hnone H)
    as (t0 & t1 & t3 & H0 & Hins & Hr & ->).
  rewrite lookup_insert_eq in Ht. inversion Ht; subst t3; clear Ht.
  apply create_players_table_Ok in H0 as (C0 & _ & _).
  assert (keyed t0) as K0 by (unfold keyed; rewrite C0; apply players_columns_keyed).
  apply insert_players_spec in Hins as (C1 & _); [|done].
  destruct (rename_columns_Ok _ _ Hr) as (ta & tb & H1 & H2 & H3).
  assert (text_but_PER (columns t)) as F.
  { eapply (rename_column_text "Pos" "Age"); [reflexivity|exact H3|].
    eapply (rename_column_text "Age" "Tm"); [reflexivity|exact H2|].
    eapply (rename_column_text "player_team" "Position"); [reflexivity|exact H1|].
    rewrite C1, C0. apply players_columns_text. }
  unfold column_affinity. rewrite Hi. simpl.
  destruct (column_index_lookup _ _ _ Hi) as (c & a & Hl & Hc).
  rewrite Hl. simpl. destruct a; [done|].
  unfold text_but_PER in F. rewrite Forall_lookup in F.
  specialize (F _ _ Hl eq_refl). simpl in F.
  apply same_name_spec in F. apply same_name_spec in Hc.
  rewrite F in Hc. vm_compute in Hc. discriminate.
Qed.

(** C9.  The query of [print_top_players] keeps a player whose games-played
    value is exactly 50 and leaves out a player whose value is 49.  The games
    column is text, as [create_nba_database] declares it. *)
Theorem games_filter_boundary t player_records :
  column_affinity "G" t = Some TEXT →
  print_top_players_records t = Ok player_records →
  ∃ i_name i_position i_per i_g,
    Sqlite.column_index "player_name" (columns t) = Some i_name ∧
    Sqlite.column_index "Position" (columns t) = Some i_position ∧
    Sqlite.column_index "PER" (columns t) = Some i_per ∧
    Sqlite.column_index "G" (columns t) = Some i_g ∧
    player_records
    = (λ r, (Sqlite.item r i_name, Sqlite.item r i_position, Sqlite.item r i_per))
        <$> List.filter (games_filter i_g TEXT) (rows t) ∧
    ∀ r, r ∈ rows t →
      (Sqlite.item r i_g = VText "50" →
         r ∈ List.filter (games_filter i_g TEXT) (rows t) ∧
         (Sqlite.item r i_name, Sqlite.item r i_position, Sqlite.item r i_per)
           ∈ player_records)
      ∧ (Sqlite.item r i_g = VText "49" →
           r ∉ List.filter (games_filter i_g TEXT) (rows t)).
Proof.
  unfold column_affinity, print_top_players_records, Sqlite.resolve.
  intros Ha H.
  destruct (Sqlite.column_index "player_name" (columns t)) as [i_name|]; [|done].
  destruct (Sqlite.column_index "Position" (columns t)) as [i_position|]; [|done].
  destruct (Sqlite.column_index "PER" (columns t)) as [i_per|]; [|done].
  destruct (Sqlite.column_index "G" (columns t)) as [i_g|]; [|done].
  simpl in Ha, H. rewrite Ha in H. simpl in H. inversion H; subst; clear H.
  exists i_name, i_position, i_per, i_g.
  do 5 (split; [done|]). intros r Hr. split.
  - intros H50.
    assert (r ∈ List.filter (games_filter i_g TEXT) (rows t)) as Hsel.
    { apply list_elem_of_In, filter_In. split; [by apply list_elem_of_In|].
      unfold games_filter. by rewrite H50. }
    split; [done|]. apply list_elem_of_fmap. by exists r.
  - intros H49 Hin%list_elem_of_In%filter_In. destruct Hin as [_ Hf].
    unfold games_filter in Hf. by rewrite H49 in Hf.
Qed.

Lemma games_filter_boundary_witness :
  ∃ i_g,
    Sqlite.column_index "G" (columns Sample.players) = Some i_g ∧
    Sample.guard_record ∈ List.filter (games_filter i_g TEXT) (rows Sample.players).
Proof.
  assert (column_affinity "G" Sample.players = Some TEXT) as Ha
    by (vm_compute; reflexivity).
  destruct (games_filter_boundary Sample.players
              [(VText "Ann Alpha", VText "PG", VReal 0)] Ha)
    as (i_name & i_position & i_per & i_g & _ & _ & _ & Hg & _ & Hrows).
  { vm_compute. reflexivity. }
  exists i_g. split; [exact Hg|].
  destruct (Hrows Sample.guard_record) as [H50 _].
  { vm_compute. apply elem_of_cons. by left. }
  apply H50. vm_compute in Hg. inversion Hg; subst i_g.
  vm_compute. reflexivity.
Defined.

(** The comparison is one of text: six games pass the filter, as "6" sorts
    after "50". *)
Example games_filter_is_textual :
  games_filter 4 TEXT Sample.bench_record = true
  ∧ Sqlite.item Sample.bench_record 4 = VText "6".
Proof. split; vm_compute; reflexivity. Qed.

(** * Further properties *)

(** ** The headers that the scrape returns *)

Lemma mapM_result_Ok {A B} (f : A → result B) (l : list A) (k : list B) :
  mapM f l = Ok k ↔ Forall2 (λ x y, f x = Ok y) l k.
Proof.
  revert k. induction l as [|x l IH]; intros k; simpl.
  - split; [intros H; inversion H; constructor|intros H; by inversion H].
  - split.
    + intros H. destruct (f x) as [y|] eqn:Hx; [|done]. simpl in H.
      destruct (mapM f l) as [k'|] eqn:Hl; [|done]. simpl in H.
      inversion H; subst. constructor; [done|]. by apply IH.
    + intros H. inversion H as [|? y ? k' Hx Hl]; subst.
      rewrite Hx. simpl. apply IH in Hl. rewrite Hl. done.
Qed.

(** X2.  Every header the scrape returns is made of word characters only, is
    not empty and does not start with a digit. *)
Theorem scraped_headers_are_identifiers page sanitized_headers player_data :
  scrape_nba_player_data page = Ok (sanitized_headers, player_data) →
  Forall (λ header,
            Text.all_chars Text.isword header = true ∧
            ∃ c s, header = String c s ∧ Text.isdigit c = false)
    sanitized_headers.
Proof.
  unfold scrape_nba_player_data. intros H.
  destruct (per_game_stats page) as [table|]; [|done].
  destruct (take 2 table) as [|first ?]; [done|].
  destruct (mapM sanitize_header _) as [hs|e] eqn:Hm; simpl in H; [|done].
  inversion H; subst. apply mapM_result_Ok in Hm.
  apply Forall_forall. intros h Hin.
  apply list_elem_of_lookup in Hin as [i Hi].
  destruct (Forall2_lookup_r _ _ _ _ _ Hm Hi) as (raw & _ & Hraw).
  by apply sanitize_header_Ok in Hraw.
Qed.

(** A property of every row of a concrete table, decided by evaluation. *)
Ltac rated_rows :=
  apply Forall_forall; intros r Hr; apply list_elem_of_In in Hr;
  revert r Hr; apply forallb_forall; vm_compute; reflexivity.

Lemma scraped_headers_are_identifiers_witness :
  Forall (λ header,
            Text.all_chars Text.isword header = true ∧
            ∃ c s, header = String c s ∧ Text.isdigit c = false)
    Sample.headers.
Proof.
  apply (scraped_headers_are_identifiers Sample.page Sample.headers Sample.player_data).
  vm_compute. reflexivity.
Defined.

Lemma eq_value_text_r v s : Sqlite.eq_value v (VText s) = true → v = VText s.
Proof. destruct v; simpl; try done. by intros ->%String.eqb_eq. Qed.


Lemma filter_length_pos {A} (p : A → bool) (l : list A) n :
  length (List.filter p l) = S n → ∃ x, x ∈ l ∧ p x = true.
Proof.
  induction l as [|a l IH]; simpl; [done|].
  destruct (p a) eqn:Hp.
  - intros _. exists a. split; [apply elem_of_cons; by left|done].
  - intros H. destruct (IH H) as (x & Hx & Hpx). exists x.
    split; [apply elem_of_cons; by right|done].
Qed.

(** One turn of the insertion loop. *)
Lemma insert_players_cons_inv player_info rest t t' r :
  keyed t →
  insert_players (player_info :: rest) t = (t', r) →
  ((length player_info < 2)%nat ∧ insert_players rest t = (t', r))
  ∨ ∃ player_name player_team player_stats,
      player_info = player_name :: player_team :: player_stats ∧
      (((∃ r0, r0 ∈ rows t ∧ identity r0 = (VText player_name, VText player_team))
        ∧ insert_players rest t = (t', r))
       ∨ ((∀ r0, r0 ∈ rows t → identity r0 ≠ (VText player_name, VText player_team))
          ∧ match Sqlite.insert
                    (player_row player_name player_team (fill_missing player_stats)) t with
            | Ok t1 => insert_players rest t1 = (t', r)
            | Fault e => t' = t ∧ r = Fault e
            end)).
Proof.
  intros K H. simpl in H.
  destruct player_info as [|player_name [|player_team player_stats]];
    [left; simpl; split; [lia|done]|left; simpl; split; [lia|done]|].
  right. exists player_name, player_team, player_stats. split; [done|].
  rewrite (probe_counts _ _ _ K) in H.
  destruct (length _) as [|n] eqn:Hn; simpl in H.
  - right. split.
    { apply (probe_none t); [done|]. by rewrite (probe_counts _ _ _ K), Hn. }
    destruct (Sqlite.insert _ t); [done|]. by inversion H.
  - left. split; [|done].
    apply filter_length_pos in Hn as (r0 & Hr0 & Hp).
    apply andb_prop in Hp as [H0%eq_value_text_r H1%eq_value_text_r].
    exists r0. split; [done|]. unfold identity. by rewrite H0, H1.
Qed.

Lemma insert_cases r t :
  match Sqlite.insert r t with
  | Ok t1 => columns t1 = columns t ∧ primary_key t1 = primary_key t
             ∧ rows t1 = rows t ++ [r] ∧ length r = length (columns t)
  | Fault e =>
      (e = OperationalError ∧ length r ≠ length (columns t))
      ∨ (e = IntegrityError ∧
         ∃ r0, r0 ∈ rows t ∧ Sqlite.agree_on (primary_key t) r r0 = true)
  end.
Proof.
  unfold Sqlite.insert.
  destruct (length r =? length (columns t))%nat eqn:Hl; simpl.
  - apply Nat.eqb_eq in Hl.
    destruct (existsb _ _) eqn:He; [|done].
    right. split; [done|]. apply existsb_exists in He as (r0 & Hin & Ha).
    exists r0. split; [by apply list_elem_of_In|done].
  - left. split; [done|]. by apply Nat.eqb_neq.
Qed.







Lemma first_occurrences_short seen player_info rest :
  (length player_info < 2)%nat →
  first_occurrences seen (player_info :: rest) = first_occurrences seen rest.
Proof. destruct player_info as [|? [|? ?]]; simpl; [done|done|lia]. Qed.

Lemma insert_players_first player_data : ∀ t t' seen,
  keyed t →
  (∀ n tm, (n, tm) ∈ seen ↔
           ∃ r0, r0 ∈ rows t ∧ identity r0 = (VText n, VText tm)) →
  insert_players player_data t = (t', Ok tt) →
  rows t' = rows t ++ (row_of_info <$> first_occurrences seen player_data).
Proof.
  induction player_data as [|info rest IH]; intros t t' seen K Hseen H.
  { inversion H; subst. simpl. by rewrite app_nil_r. }
  apply insert_players_cons_inv in H
    as [[Hshort H]|(n & tm & st & -> & [[Hin H]|[Hfresh H]])]; [| | |done].
  - rewrite first_occurrences_short by done. by apply IH.
  - simpl. rewrite decide_True by (by apply Hseen). by apply IH.
  - simpl. rewrite decide_False.
    2:{ intros (r0 & Hr0 & Hid)%Hseen. by apply (Hfresh r0). }
    pose proof (insert_cases (player_row n tm (fill_missing st)) t) as Hc.
    destruct (Sqlite.insert _ t) as [t1|e1]; [|by destruct H].
    destruct Hc as (C1 & P1 & R1 & _).
    rewrite (IH t1 t' ((n, tm) :: seen)); [| | |done].
    + rewrite R1. simpl. by rewrite <- app_assoc.
    + destruct K. split; by rewrite C1.
    + intros n' tm'. rewrite R1. split.
      * intros [Heq|Hin]%elem_of_cons.
        -- inversion Heq; subst. eexists. split; [|apply identity_player_row].
           apply elem_of_app. right. apply list_elem_of_singleton. reflexivity.
        -- apply Hseen in Hin as (r0 & Hr0 & Hid). exists r0.
           split; [apply elem_of_app; by left|done].
      * intros (r0 & [Hr0|Hr0]%elem_of_app & Hid).
        -- apply elem_of_cons. right. apply Hseen. by exists r0.
        -- apply list_elem_of_singleton in Hr0. subst r0.
           rewrite identity_player_row in Hid. inversion Hid; subst.
           apply elem_of_cons. by left.
Qed.

(** X4.  After a creation that went through, the table holds, in page
    order, one row for each scraped row that has its two leading fields and
    whose pair of leading fields was not met before; a later row with the
    same pair leaves no trace, whatever its statistics. *)
Theorem stored_rows_are_first_occurrences headers player_data year fs fs' t :
  fs !! year = None →
  create_nba_database headers player_data year fs = (fs', Ok tt) →
  fs' !! year = Some (Some t) →
  rows t = row_of_info <$> first_occurrences [] player_data.
Proof.
  intros Hnone H Ht.
  destruct (create_nba_database_Ok _ _ _ _ _ Hnone H)
    as (t0 & t1 & t3 & H0 & Hi & Hr & ->).
  rewrite lookup_insert_eq in Ht. inversion Ht; subst t3; clear Ht.
  apply create_players_table_Ok in H0 as (C0 & P0 & R0).
  assert (keyed t0) as K0 by (unfold keyed; rewrite C0; apply players_columns_keyed).
  pose proof (rename_columns_rows t1) as RR. rewrite Hr in RR. simpl in RR.
  rewrite RR, (insert_players_first player_data t0 t1 [] K0); [by rewrite R0| |done].
  intros n tm. rewrite R0. split; [by intros ?%elem_of_nil|].
  by intros (r0 & ?%elem_of_nil & _).
Qed.

Lemma stored_rows_are_first_occurrences_witness :
  rows League.created_players
  = row_of_info <$> first_occurrences [] League.player_data.
Proof.
  apply (stored_rows_are_first_occurrences League.headers League.player_data
           2024%Z ∅ League.created League.created_players).
  - apply lookup_empty.
  - vm_compute. reflexivity.
  - vm_compute. reflexivity.
Defined.

Lemma insert_players_lengths player_data : ∀ t t' r,
  keyed t →
  insert_players player_data t = (t', r) →
  Forall (λ row, length row = length (columns t)) (rows t) →
  Forall (λ row, length row = length (columns t)) (rows t').
Proof.
  induction player_data as [|info rest IH]; intros t t' r K H F.
  { by inversion H; subst. }
  apply insert_players_cons_inv in H
    as [[_ H]|(n & tm & st & -> & [[_ H]|[_ H]])]; [by eapply IH|by eapply IH| |done].
  pose proof (insert_cases (player_row n tm (fill_missing st)) t) as Hc.
  destruct (Sqlite.insert _ t) as [t1|e1]; [|by destruct H as [-> _]].
  destruct Hc as (C1 & P1 & R1 & L1). rewrite <- C1.
  eapply (IH t1); [destruct K; split; by rewrite C1|done|].
  rewrite R1, C1. apply Forall_app. split; [done|]. by apply Forall_singleton.
Qed.

Lemma fill_missing_nonempty player_stats :
  Forall (λ stat, stat ≠ EmptyString) (fill_missing player_stats).
Proof.
  unfold fill_missing. apply Forall_fmap, Forall_true. by intros [|c s].
Qed.

Lemma rename_column_length old new t t' :
  Sqlite.rename_column old new t = Ok t' → length (columns t') = length (columns t).
Proof.
  unfold Sqlite.rename_column, Sqlite.resolve.
  destruct (Sqlite.column_index old (columns t)); simpl; [|done].
  destruct (existsb _ _); [done|]. intros H; inversion H; subst. simpl.
  apply length_alter.
Qed.

(** X5.  After a creation that went through, every stored row has one cell
    per column: the two identity fields as text, then one text per
    statistics header, none of them empty, then the rating 0.0. *)
Theorem stored_rows_filled headers player_data year fs fs' t :
  fs !! year = None →
  create_nba_database headers player_data year fs = (fs', Ok tt) →
  fs' !! year = Some (Some t) →
  Forall (λ row,
            length row = length (columns t) ∧
            ∃ player_name player_team filled,
              row = [VText player_name; VText player_team]
                      ++ (VText <$> filled) ++ [VReal 0%float] ∧
              length filled = length (stat_headers headers) ∧
              Forall (λ stat, stat ≠ EmptyString) filled)
    (rows t).
Proof.
  intros Hnone H Ht.
  destruct (create_nba_database_Ok _ _ _ _ _ Hnone H)
    as (t0 & t1 & t3 & H0 & Hi & Hr & ->).
  rewrite lookup_insert_eq in Ht. inversion Ht; subst t3; clear Ht.
  apply create_players_table_Ok in H0 as (C0 & P0 & R0).
  assert (keyed t0) as K0 by (unfold keyed; rewrite C0; apply players_columns_keyed).
  pose proof (insert_players_lengths _ _ _ _ K0 Hi) as L. rewrite R0 in L.
  specialize (L (Forall_nil_2 _)).
  apply insert_players_spec in Hi as (C1 & P1 & (added & R1 & F1) & _); [|done].
  rewrite R0 in R1. simpl in R1. rewrite <- R1 in F1. clear added R1.
  pose proof (rename_columns_rows t1) as RR. rewrite Hr in RR. simpl in RR.
  destruct (rename_columns_Ok _ _ Hr) as (ta & tb & H1 & H2 & H3).
  apply rename_column_length in H1, H2, H3.
  rewrite RR. rewrite Forall_forall in L, F1. apply Forall_forall.
  intros row Hrow. specialize (L _ Hrow).
  destruct (F1 _ Hrow) as (n & tm & st & _ & ->).
  split; [congruence|]. exists n, tm, (fill_missing st).
  split; [done|]. split; [|apply fill_missing_nonempty].
  rewrite C0 in L. unfold player_row, players_columns in L.
  simpl in L. rewrite !length_app, !length_fmap in L. simpl in L. lia.
Qed.

Lemma stored_rows_filled_witness :
  Forall (λ row,
            length row = length (columns Sample.players) ∧
            ∃ player_name player_team filled,
              row = [VText player_name; VText player_team]
                      ++ (VText <$> filled) ++ [VReal 0%float] ∧
              length filled = length (stat_headers Sample.headers) ∧
              Forall (λ stat, stat ≠ EmptyString) filled)
    (rows Sample.players).
Proof.
  apply (stored_rows_filled Sample.headers Sample.player_data 2024%Z ∅
           Sample.stored Sample.players).
  - apply lookup_empty.
  - vm_compute. reflexivity.
  - vm_compute. reflexivity.
Defined.

(** ** Reserved words, and the place of the rating *)

Lemma create_players_table_names headers t0 :
  create_players_table headers = Ok t0 →
  forallb (λ name, negb (Sqlite.reserved name)) (players_columns headers).*1 = true ∧
  Sqlite.distinct_names (players_columns headers).*1 = true.
Proof.
  unfold create_players_table. destruct (stat_headers headers); [done|].
  unfold Sqlite.create_table.
  destruct (forallb _ _) eqn:Hr; [|done].
  destruct (Sqlite.distinct_names _) eqn:Hd; [done|done].
Qed.

(** A statistics header that is a reserved word stops the creation. *)
Lemma reserved_header_fault headers player_data year fs header :
  fs !! year = None →
  header ∈ stat_headers headers →
  Sqlite.reserved header = true →
  create_nba_database headers player_data year fs
  = (<[year := None]> fs, Fault OperationalError).
Proof.
  intros Hnone Hin Hres. unfold create_nba_database, populate. rewrite Hnone.
  assert (create_players_table headers = Fault OperationalError) as ->; [|done].
  assert (forallb (λ name, negb (Sqlite.reserved name)) (players_columns headers).*1
          = false) as Hall.
  { destruct (forallb _ _) eqn:E; [|done]. exfalso.
    rewrite forallb_forall in E.
    assert (In header (players_columns headers).*1) as Hcol.
    { apply list_elem_of_In.
      unfold players_columns. rewrite !fmap_cons, fmap_app. do 2 right.
      apply elem_of_app. left. rewrite <- list_fmap_compose.
      apply list_elem_of_fmap. by exists header. }
    apply E in Hcol. by rewrite Hres in Hcol. }
  unfold create_players_table, Sqlite.create_table. rewrite Hall.
  by destruct (stat_headers headers).
Qed.

Example reserved_header_Group :
  create_nba_database ["Player"; "Pos"; "Age"; "Tm"; "Group"] [] 2024 ∅
  = (<[2024%Z := None]> ∅, Fault OperationalError)
  ∧ Sqlite.reserved "KEY" = false.
Proof. split; [|reflexivity]. vm_compute. reflexivity. Qed.

(** With names that differ, the name of the last column resolves to it. *)
Lemma column_index_last_distinct name a cols :
  Sqlite.distinct_names (cols.*1 ++ [name]) = true →
  Sqlite.column_index name (cols ++ [(name, a)]) = Some (length cols).
Proof.
  induction cols as [|[c a'] rest IH]; simpl; intros H.
  - unfold Sqlite.same_name. by rewrite String.eqb_refl.
  - apply andb_true_iff in H as [Hc Hd]. apply negb_true_iff in Hc.
    rewrite existsb_app in Hc. apply orb_false_iff in Hc as [_ Hc].
    simpl in Hc. rewrite orb_false_r in Hc. rewrite Hc.
    exact (f_equal (fmap S) (IH Hd)).
Qed.

Lemma players_columns_PER_last headers t0 :
  create_players_table headers = Ok t0 →
  Sqlite.column_index "PER" (players_columns headers)
  = Some (2 + length (stat_headers headers))%nat.
Proof.
  intros [_ Hd]%create_players_table_names.
  change (players_columns headers)
    with ((("player_name", TEXT) :: ("player_team", TEXT)
             :: ((λ header, (header, TEXT)) <$> stat_headers headers))
            ++ [("PER", REAL)]) in *.
  rewrite fmap_app in Hd.
  rewrite (column_index_last_distinct "PER" REAL _ Hd).
  simpl. by rewrite length_fmap.
Qed.

(** The table that a creation leaves: the rating is its last column, and
    every row was made from a scraped row with as many statistics as there
    are statistics headers. *)
Lemma created_rows headers player_data year fs fs' t :
  fs !! year = None →
  create_nba_database headers player_data year fs = (fs', Ok tt) →
  fs' !! year = Some (Some t) →
  length (columns t) = (3 + length (stat_headers headers))%nat ∧
  Sqlite.column_index "PER" (columns t)
  = Some (2 + length (stat_headers headers))%nat ∧
  Forall (λ row,
            ∃ player_name player_team player_stats,
              (player_name :: player_team :: player_stats) ∈ player_data ∧
              row = player_row player_name player_team (fill_missing player_stats) ∧
              length player_stats = length (stat_headers headers))
    (rows t).
Proof.
  intros Hnone H Ht.
  destruct (create_nba_database_Ok _ _ _ _ _ Hnone H)
    as (t0 & t1 & t3 & H0 & Hi & Hr & ->).
  rewrite lookup_insert_eq in Ht. inversion Ht; subst t3; clear Ht.
  pose proof (players_columns_PER_last _ _ H0) as Hlast.
  apply create_players_table_Ok in H0 as (C0 & P0 & R0).
  assert (keyed t0) as K0 by (unfold keyed; rewrite C0; apply players_columns_keyed).
  pose proof (insert_players_lengths _ _ _ _ K0 Hi) as L. rewrite R0 in L.
  specialize (L (Forall_nil_2 _)).
  apply insert_players_spec in Hi as (C1 & P1 & (added & R1 & F1) & _); [|done].
  rewrite R0 in R1. simpl in R1. rewrite <- R1 in F1. clear added R1.
  pose proof (rename_columns_rows t1) as RR. rewrite Hr in RR. simpl in RR.
  destruct (rename_columns_index _ _ Hr) as (_ & _ & IR & _).
  destruct (rename_columns_Ok _ _ Hr) as (ta & tb & H1 & H2 & H3).
  apply rename_column_length in H1, H2, H3.
  assert (length (players_columns headers) = (3 + length (stat_headers headers))%nat)
    as Hlen.
  { unfold players_columns. simpl. rewrite length_app, length_fmap. simpl. lia. }
  split; [congruence|]. split; [by rewrite IR, C1, C0|].
  rewrite RR. rewrite Forall_forall in L, F1. apply Forall_forall.
  intros row Hrow. specialize (L _ Hrow).
  destruct (F1 _ Hrow) as (n & tm & st & Hin & ->).
  exists n, tm, st. split; [done|]. split; [done|].
  rewrite C0, Hlen in L. unfold player_row, fill_missing in L.
  simpl in L. rewrite !length_app, !length_fmap in L. simpl in L. lia.
Qed.

(** ** The key of the write-back (C2) *)

(** C2.  In a store created by [create_nba_database], the column named
    Position is the renamed [player_team] column: it is the second column,
    and it holds, for each stored row, the second field of the scraped row,
    which the insertion loop binds to [player_team] and keys the row by.  It
    is not the column the rows were inserted under as Pos, which lies
    further right and ends up named Age.  For each stored record
    [PER_calculator] writes the rating with an update whose predicate compares
    the columns player_name and Position with the first two fields of that
    record.  On a page whose header row reads Player, Pos, Age, Tm the second
    field of a row is its basketball position, and its team abbreviation, the
    fourth field, is stored in the column named Tm. *)
Theorem PER_update_key float_of_str headers player_data year fs fs' t :
  fs !! year = None →
  create_nba_database headers player_data year fs = (fs', Ok tt) →
  fs' !! year = Some (Some t) →
  Sqlite.column_index "player_name" (columns t) = Some 0%nat
  ∧ Sqlite.column_index "Position" (columns t) = Some 1%nat
  ∧ (∀ record, record ∈ rows t →
       ∃ player_name player_team player_stats,
         (player_name :: player_team :: player_stats) ∈ player_data ∧
         Sqlite.item record 0 = VText player_name ∧
         Sqlite.item record 1 = VText player_team)
  ∧ (∃ i_pos,
       Sqlite.column_index "Pos" (players_columns headers) = Some i_pos ∧
       Sqlite.column_index "Age" (columns t) = Some i_pos ∧ (2 ≤ i_pos)%nat)
  ∧ (∃ i_per,
      Sqlite.column_index "PER" (columns t) = Some i_per ∧
      ∀ record rest PER t0,
        record ∈ rows t → columns t0 = columns t →
        PER_of_record float_of_str record = Ok PER →
        update_records float_of_str (record :: rest) t0
        = update_records float_of_str rest
            {| columns := columns t0; primary_key := primary_key t0;
               rows := (λ r, if same_identity r record
                             then <[i_per := Sqlite.bind_float PER]> r
                             else r) <$> rows t0 |})
  ∧ ∀ more,
      headers = "Player" :: "Pos" :: "Age" :: "Tm" :: more →
      Sqlite.column_index "Age" (columns t) = Some 2%nat ∧
      Sqlite.column_index "Tm" (columns t) = Some 3%nat ∧
      ∀ record, record ∈ rows t →
        ∃ player_name position age team player_stats,
          (player_name :: position :: age :: team :: player_stats) ∈ player_data ∧
          record = player_row player_name position
                     (fill_missing (age :: team :: player_stats)).
Proof.
  intros Hnone H Ht.
  assert (∀ more,
            headers = "Player" :: "Pos" :: "Age" :: "Tm" :: more →
            Sqlite.column_index "Age" (columns t) = Some 2%nat ∧
            Sqlite.column_index "Tm" (columns t) = Some 3%nat ∧
            ∀ record, record ∈ rows t →
              ∃ player_name position age team player_stats,
                (player_name :: position :: age :: team :: player_stats)
                  ∈ player_data ∧
                record = player_row player_name position
                           (fill_missing (age :: team :: player_stats))) as Layout.
  { intros more ->.
    destruct (renames_match_page_labels _ _ _ _ _ _ Hnone H Ht) as (_ & IA & IT & _).
    destruct (created_rows _ _ _ _ _ _ Hnone H Ht) as (_ & _ & Rows).
    split; [done|]. split; [done|]. intros record Hrec.
    rewrite Forall_forall in Rows.
    destruct (Rows _ Hrec) as (n & p & st & Hin & -> & Hlen).
    change (stat_headers ("Player" :: "Pos" :: "Age" :: "Tm" :: more))
      with ("Pos" :: "Age" :: stat_headers more) in Hlen.
    destruct st as [|age [|team st]]; simpl in Hlen; [lia|lia|].
    by exists n, p, age, team, st. }
  destruct (create_nba_database_Ok _ _ _ _ _ Hnone H)
    as (t0 & t1 & t3 & H0 & Hi & Hr & ->).
  rewrite lookup_insert_eq in Ht. inversion Ht; subst t3; clear Ht.
  apply create_players_table_Ok in H0 as (C0 & P0 & R0).
  assert (keyed t0) as K0 by (unfold keyed; rewrite C0; apply players_columns_keyed).
  apply insert_players_spec in Hi as (C1 & P1 & (added & R1 & F1) & _); [|done].
  rewrite R0 in R1. simpl in R1. rewrite <- R1 in F1. clear added R1.
  destruct (rename_columns_index _ _ Hr) as (IP & IN & IR & IA & _ & [i_pos SA]).
  pose proof (rename_columns_rows t1) as RR. rewrite Hr in RR. simpl in RR.
  rewrite C1, C0 in IP, IN, IR, IA, SA.
  destruct (players_columns_keyed headers) as [N0 N1].
  rewrite N1 in IP. rewrite N0 in IN.
  assert (∀ record, record ∈ rows t →
            ∃ player_name player_team player_stats,
              (player_name :: player_team :: player_stats) ∈ player_data ∧
              Sqlite.item record 0 = VText player_name ∧
              Sqlite.item record 1 = VText player_team) as Prov.
  { intros record Hrec. rewrite RR in Hrec. rewrite Forall_forall in F1.
    destruct (F1 _ Hrec) as (n & tm & st & Hin & ->). by exists n, tm, st. }
  split; [done|]. split; [done|]. split; [done|].
  split.
  { exists i_pos. rewrite IA. repeat split; [done|done|].
    by apply (players_columns_off_key headers "Pos"). }
  split; [|exact Layout].
  destruct (players_columns_PER headers) as [i_per Hper]. rewrite Hper in IR.
  exists i_per. split; [done|].
  intros record rest PER t0' Hrec Hcols HPER. simpl. rewrite HPER.
  destruct (Prov _ Hrec) as (n & tm & st & _ & E0 & E1).
  unfold same_identity. rewrite E0, E1.
  unfold update_PER, py_getitem. unfold Sqlite.item in E0, E1.
  destruct (record !! 0%nat) as [v0|]; [|done].
  destruct (record !! 1%nat) as [v1|]; [|done].
  simpl in E0, E1. subst v0 v1. simpl.
  unfold Sqlite.update_where, Sqlite.resolve. by rewrite Hcols, IR, IN, IP.
Qed.

Lemma PER_update_key_witness :
  Sqlite.column_index "player_name" (columns Sample.players) = Some 0%nat
  ∧ Sqlite.column_index "Position" (columns Sample.players) = Some 1%nat
  ∧ Sqlite.column_index "Tm" (columns Sample.players) = Some 3%nat.
Proof.
  assert (create_nba_database Sample.headers Sample.player_data 2024 ∅
          = (Sample.stored, Ok tt)) as Hrun by (vm_compute; reflexivity).
  assert (Sample.stored !! 2024%Z = Some (Some Sample.players)) as Hstore
    by (vm_compute; reflexivity).
  destruct (PER_update_key Decimal.float_of_str Sample.headers
              Sample.player_data 2024%Z ∅ Sample.stored Sample.players
              (lookup_empty _) Hrun Hstore)
    as (Hname & Hposition & _ & _ & _ & Hlayout).
  destruct (Hlayout (drop 4 Sample.headers) eq_refl) as (_ & Htm & _).
  by repeat split.
Defined.

(** C2, as stated, fails: on the sample page, laid out Player, Pos, Age, Tm,
    the cell of the column Position is the position of the player, not the
    team. *)
Lemma Position_is_not_the_team :
  ¬ (∀ headers more player_data year fs fs' t
       player_name position age team player_stats i,
       headers = "Player" :: "Pos" :: "Age" :: "Tm" :: more →
       fs !! year = None →
       create_nba_database headers player_data year fs = (fs', Ok tt) →
       fs' !! year = Some (Some t) →
       (player_name :: position :: age :: team :: player_stats) ∈ player_data →
       player_row player_name position
         (fill_missing (age :: team :: player_stats)) ∈ rows t →
       Sqlite.column_index "Position" (columns t) = Some i →
       Sqlite.item
         (player_row player_name position
            (fill_missing (age :: team :: player_stats))) i
       = VText team).
Proof.
  intros Claim.
  specialize (Claim Sample.headers (drop 4 Sample.headers) Sample.player_data
                2024%Z ∅ Sample.stored Sample.players
                "Ann Alpha" "PG" "27" "BOS" (drop 4 Sample.guard_fields) 1%nat).
  assert (VText "PG" = VText "BOS") as E; [|discriminate E].
  apply Claim.
  - reflexivity.
  - apply lookup_empty.
  - vm_compute. reflexivity.
  - vm_compute. reflexivity.
  - vm_compute. apply elem_of_cons. by left.
  - vm_compute. apply elem_of_cons. by left.
  - vm_compute. reflexivity.
Qed.

Lemma distinct_names_collision names : ∀ i j a b,
  (i < j)%nat → names !! i = Some a → names !! j = Some b →
  Sqlite.same_name a b = true → Sqlite.distinct_names names = false.
Proof.
  induction names as [|n rest IH]; intros i j a b Hij Hi Hj Hab; [done|].
  simpl. destruct j as [|j]; [lia|]. simpl in Hj.
  destruct i as [|i]; simpl in Hi.
  - inversion Hi; subst n.
    assert (existsb (Sqlite.same_name a) rest = true) as ->; [|done].
    apply existsb_exists. exists b. split; [|done].
    apply list_elem_of_In. by eapply list_elem_of_lookup_2.
  - rewrite (IH i j a b); [by rewrite andb_false_r|lia|done|done|done].
Qed.

(** X6.  Two columns of the creation query whose names differ at most in
    the case of their letters stop the creation with an [OperationalError],
    and the file stays behind without a table. *)
Theorem colliding_columns_fault headers player_data year fs i j a b :
  fs !! year = None →
  (i < j)%nat →
  (players_columns headers).*1 !! i = Some a →
  (players_columns headers).*1 !! j = Some b →
  Sqlite.same_name a b = true →
  create_nba_database headers player_data year fs
  = (<[year := None]> fs, Fault OperationalError).
Proof.
  intros Hnone Hij Hi Hj Hab. unfold create_nba_database, populate.
  rewrite Hnone.
  assert (create_players_table headers = Fault OperationalError) as ->; [|done].
  unfold create_players_table. destruct (stat_headers headers); [done|].
  unfold Sqlite.create_table.
  by rewrite (distinct_names_collision _ i j a b), andb_false_r.
Qed.

Lemma colliding_columns_fault_witness :
  create_nba_database League.colliding_headers League.player_data 2024 ∅
  = (<[2024%Z := None]> ∅, Fault OperationalError).
Proof.
  apply (colliding_columns_fault League.colliding_headers League.player_data
           2024%Z ∅ 4%nat 5%nat "FGPct" "fgpct").
  - apply lookup_empty.
  - lia.
  - reflexivity.
  - reflexivity.
  - reflexivity.
Defined.

(** X7.  Whatever it is given, [create_nba_database] leaves a file for the
    season, so that a second call, with any headers and rows, changes
    nothing and reports no fault. *)
Theorem create_nba_database_once headers player_data headers' player_data' year fs :
  create_nba_database headers' player_data' year
    (create_nba_database headers player_data year fs).1
  = ((create_nba_database headers player_data year fs).1, Ok tt).
Proof.
  assert (is_Some ((create_nba_database headers player_data year fs).1 !! year))
    as [db Hdb].
  { unfold create_nba_database. destruct (fs !! year) eqn:Hy; [simpl; rewrite Hy; eauto|].
    destruct (populate headers player_data). simpl.
    rewrite lookup_insert_eq. eauto. }
  unfold create_nba_database at 1. by rewrite Hdb.
Qed.

(** X8.  [PER_calculator] on a season without a file stops with an
    [OperationalError] after the connection has made an empty file; a
    creation that follows finds the file and skips, so that the season stays
    without a table. *)
Theorem PER_calculator_first_blocks_creation
    float_of_str web headers player_data year fs :
  fs !! year = None →
  is_ok (scrape_nba_player_data (web year)) = true →
  PER_calculator float_of_str web year fs
  = (<[year := None]> fs, Fault OperationalError)
  ∧ create_nba_database headers player_data year
      (PER_calculator float_of_str web year fs).1
    = (<[year := None]> fs, Ok tt).
Proof.
  intros Hnone Hok.
  unfold PER_calculator.
  destruct (scrape_nba_player_data (web year)) as [[hs d]|]; [|done].
  destruct (fs !! year) as [[t|]|] eqn:Hy; [congruence|congruence|].
  split; [done|]. simpl.
  unfold create_nba_database. by rewrite lookup_insert_eq.
Qed.

Lemma PER_calculator_first_blocks_creation_witness :
  PER_calculator Decimal.float_of_str (λ _, Sample.page) 2024 ∅
  = (<[2024%Z := None]> ∅, Fault OperationalError)
  ∧ create_nba_database Sample.headers Sample.player_data 2024
      (PER_calculator Decimal.float_of_str (λ _, Sample.page) 2024 ∅).1
    = (<[2024%Z := None]> ∅, Ok tt).
Proof.
  apply (PER_calculator_first_blocks_creation Decimal.float_of_str
           (λ _, Sample.page) Sample.headers Sample.player_data 2024%Z ∅).
  - apply lookup_empty.
  - reflexivity.
Defined.

(** X9.  Neither writer touches the file of another season. *)
Theorem other_seasons_untouched float_of_str web headers player_data year season fs :
  season ≠ year →
  (create_nba_database headers player_data year fs).1 !! season = fs !! season
  ∧ (PER_calculator float_of_str web year fs).1 !! season = fs !! season.
Proof.
  intros Hne. split.
  - unfold create_nba_database. destruct (fs !! year); [done|].
    destruct (populate headers player_data). simpl. by rewrite lookup_insert_ne.
  - unfold PER_calculator.
    destruct (scrape_nba_player_data (web year)) as [[hs d]|]; [|done].
    destruct (fs !! year) as [[t|]|]; simpl; [|done|by rewrite lookup_insert_ne].
    destruct (update_records float_of_str (rows t) t). simpl.
    by rewrite lookup_insert_ne.
Qed.

Lemma other_seasons_untouched_witness :
  (create_nba_database League.headers League.player_data 2023 Sample.stored).1
    !! 2024%Z = Sample.stored !! 2024%Z
  ∧ (PER_calculator Decimal.float_of_str (λ _, League.page) 2023 Sample.stored).1
      !! 2024%Z = Sample.stored !! 2024%Z.
Proof.
  apply (other_seasons_untouched Decimal.float_of_str (λ _, League.page)
           League.headers League.player_data 2023%Z 2024%Z Sample.stored).
  lia.
Defined.

Lemma update_PER_only_PER PER player_record t t' :
  update_PER PER player_record t = Ok t' →
  columns t' = columns t ∧ primary_key t' = primary_key t ∧
  Forall2 (same_but_PER t) (rows t) (rows t').
Proof.
  unfold update_PER. intros H.
  destruct (py_getitem player_record 0) as [name|]; [|done].
  destruct (py_getitem player_record 1) as [position|]; [|done].
  simpl in H. apply update_where_Ok in H as (it & i1 & i2 & Ht & _ & _ & ->).
  simpl. split; [done|]. split; [done|].
  apply Forall2_fmap_r, Forall_Forall2_diag, Forall_true. intros r.
  unfold compose.
  match goal with |- context [if ?c then _ else _] => destruct c end; [|by split].
  split; [by rewrite length_insert|]. intros i Hi.
  apply list_lookup_insert_ne. congruence.
Qed.

Lemma update_records_only_PER float_of_str player_records : ∀ t,
  columns (update_records float_of_str player_records t).1 = columns t ∧
  primary_key (update_records float_of_str player_records t).1 = primary_key t ∧
  Forall2 (same_but_PER t) (rows t)
    (rows (update_records float_of_str player_records t).1).
Proof.
  induction player_records as [|player_record rest IH]; intros t; simpl.
  { repeat split. apply Forall_Forall2_diag, Forall_true. by split. }
  assert (Forall2 (same_but_PER t) (rows t) (rows t)) as Hrefl
    by (apply Forall_Forall2_diag, Forall_true; by split).
  destruct (PER_of_record float_of_str player_record) as [PER|]; [|done].
  destruct (update_PER PER player_record t) as [t'|] eqn:Hu; [|done].
  apply update_PER_only_PER in Hu as (C & P & F).
  destruct (IH t') as (C' & P' & F').
  split; [congruence|]. split; [congruence|].
  eapply Forall2_trans; [|exact F|exact F'].
  intros r1 r2 r3 [L1 E1] [L2 E2]. split; [congruence|].
  intros i Hi. rewrite E2 by (by rewrite C). by apply E1.
Qed.

(** X10.  Whether [PER_calculator] runs to its end or stops at a row, it
    leaves the schema and the number of rows as they were, and in every row
    every cell but the one of the column PER. *)
Theorem PER_calculator_only_PER float_of_str web year fs t :
  fs !! year = Some (Some t) →
  ∃ t',
    (PER_calculator float_of_str web year fs).1 !! year = Some (Some t') ∧
    columns t' = columns t ∧ primary_key t' = primary_key t ∧
    Forall2 (same_but_PER t) (rows t) (rows t').
Proof.
  intros Ht. unfold PER_calculator.
  destruct (scrape_nba_player_data (web year)) as [[hs d]|].
  2:{ exists t. simpl. repeat split; [done|].
      apply Forall_Forall2_diag, Forall_true. by split. }
  rewrite Ht. destruct (update_records_only_PER float_of_str (rows t) t) as (C & P & F).
  destruct (update_records float_of_str (rows t) t) as [t' r]. simpl in *.
  exists t'. by rewrite lookup_insert_eq.
Qed.

Lemma PER_calculator_only_PER_witness :
  ∃ t',
    (PER_calculator Decimal.float_of_str (λ _, Sample.page) 2024 Sample.stored).1
      !! 2024%Z = Some (Some t') ∧
    columns t' = columns Sample.players ∧
    primary_key t' = primary_key Sample.players ∧
    Forall2 (same_but_PER Sample.players) (rows Sample.players) (rows t').
Proof.
  apply (PER_calculator_only_PER Decimal.float_of_str (λ _, Sample.page) 2024%Z
           Sample.stored Sample.players).
  vm_compute. reflexivity.
Defined.

Section Rated.

Variable float_of_str : string → option float.
Variable i_per : nat.
Hypothesis Hper : (2 ≤ i_per)%nat.

Lemma identity_rated r : identity (rated float_of_str i_per r) = identity r.
Proof using Hper.
  unfold rated. destruct (PER_of_record float_of_str r); [|done].
  by apply identity_insert.
Qed.

Lemma same_identity_text r record :
  text_identity record →
  same_identity r record = true → identity r = identity record.
Proof.
  intros (n & tm & H0 & H1). unfold same_identity, identity, Sqlite.item.
  rewrite H0, H1. simpl.
  intros [E0%eq_value_text_r E1%eq_value_text_r]%andb_prop.
  unfold Sqlite.item in E0, E1. by rewrite E0, E1.
Qed.

Lemma same_identity_refl record :
  text_identity record → same_identity record record = true.
Proof.
  intros (n & tm & H0 & H1). unfold same_identity, Sqlite.item.
  rewrite H0, H1. simpl. by rewrite !String.eqb_refl.
Qed.

Lemma update_others (record : list value) (v : value) (l : list (list value)) :
  Forall (λ r, identity r ≠ identity record) l →
  text_identity record →
  (λ r, if same_identity r record then <[i_per := v]> r else r) <$> l = l.
Proof.
  intros F T. induction F as [|r l Hr F IH]; [done|].
  rewrite fmap_cons, IH. f_equal.
  destruct (same_identity r record) eqn:Hs; [|done].
  by apply same_identity_text in Hs.
Qed.

Lemma update_records_rated pending : ∀ done t,
  Sqlite.column_index "player_name" (columns t) = Some 0%nat →
  Sqlite.column_index "Position" (columns t) = Some 1%nat →
  Sqlite.column_index "PER" (columns t) = Some i_per →
  NoDup (identity <$> (done ++ pending)) →
  Forall text_identity pending →
  rows t = (rated float_of_str i_per <$> done) ++ pending →
  Forall (λ r, is_ok (PER_of_record float_of_str r) = true) pending →
  update_records float_of_str pending t
  = ({| columns := columns t; primary_key := primary_key t;
        rows := rated float_of_str i_per <$> (done ++ pending) |}, Ok tt).
Proof using Hper.
  induction pending as [|record rest IH]; intros done t Hn Hp Hr ND T R F.
  { simpl. rewrite app_nil_r in *. rewrite <- R. by destruct t. }
  apply Forall_cons in F as [Hok F]. apply Forall_cons in T as [Trec T].
  simpl. destruct (PER_of_record float_of_str record) as [PER|] eqn:HPER; [|done].
  destruct Trec as (n & tm & H0 & H1).
  unfold update_PER, py_getitem. rewrite H0, H1. simpl.
  unfold Sqlite.update_where, Sqlite.resolve. rewrite Hr, Hn, Hp. simpl.
  assert (text_identity record) as Trec by (by exists n, tm).
  assert (∀ r, (Sqlite.eq_value (Sqlite.item r 0) (VText n)
                && Sqlite.eq_value (Sqlite.item r 1) (VText tm))
               = same_identity r record) as Hsame.
  { intros r. unfold same_identity, Sqlite.item. by rewrite H0, H1. }
  rewrite (list_fmap_ext _ (λ r, if same_identity r record
                                 then <[i_per := Sqlite.bind_float PER]> r else r)
             (rows t)) by (intros; by rewrite Hsame).
  pose proof ND as ND0.
  rewrite fmap_app in ND. apply NoDup_app in ND as (ND1 & ND12 & ND2).
  rewrite fmap_cons in ND2, ND12. apply NoDup_cons in ND2 as [Hnot ND2].
  rewrite R, fmap_app, fmap_cons.
  rewrite (update_others record _ (rated float_of_str i_per <$> done)); [| |done].
  2:{ apply Forall_fmap, Forall_forall. intros d Hd. simpl.
      rewrite identity_rated. intros E. apply (ND12 (identity d)).
      - apply list_elem_of_fmap. eauto.
      - rewrite E. apply elem_of_cons. by left. }
  rewrite (update_others record _ rest); [| |done].
  2:{ apply Forall_forall. intros r Hin E. apply Hnot. rewrite <- E.
      apply list_elem_of_fmap. eauto. }
  rewrite (same_identity_refl record Trec).
  pose proof (IH (done ++ [record])
                {| columns := columns t; primary_key := primary_key t;
                   rows := (rated float_of_str i_per <$> done)
                           ++ <[i_per := Sqlite.bind_float PER]> record :: rest |})
    as IH'.
  simpl in IH'. rewrite <- app_assoc in IH'. simpl in IH'.
  apply IH'; try done.
  rewrite fmap_app, <- app_assoc. simpl. do 2 f_equal.
  unfold rated. by rewrite HPER.
Qed.

End Rated.

Lemma ingested_text_identity player_data r :
  ingested player_data r → text_identity r.
Proof. intros (n & tm & st & _ & ->). by exists n, tm. Qed.

Lemma column_index_bound name cols i :
  Sqlite.column_index name cols = Some i → (i < length cols)%nat.
Proof.
  intros H. destruct (column_index_lookup _ _ _ H) as (c & a & Hl & _).
  by apply lookup_lt_Some in Hl.
Qed.

(** The shape of a store that [create_nba_database] has just created. *)
Lemma created_store_shape headers player_data year fs fs' t :
  fs !! year = None →
  create_nba_database headers player_data year fs = (fs', Ok tt) →
  fs' !! year = Some (Some t) →
  fs' = <[year := Some t]> fs ∧
  Sqlite.column_index "player_name" (columns t) = Some 0%nat ∧
  Sqlite.column_index "Position" (columns t) = Some 1%nat ∧
  (∃ i_per, Sqlite.column_index "PER" (columns t) = Some i_per ∧ (2 ≤ i_per)%nat) ∧
  identities_unique t ∧ Forall (ingested player_data) (rows t).
Proof.
  intros Hnone H Ht.
  destruct (create_nba_database_Ok _ _ _ _ _ Hnone H)
    as (t0 & t1 & t3 & H0 & Hi & Hr & ->).
  rewrite lookup_insert_eq in Ht. inversion Ht; subst t3; clear Ht.
  split; [done|].
  apply create_players_table_Ok in H0 as (C0 & P0 & R0).
  assert (keyed t0) as K0 by (unfold keyed; rewrite C0; apply players_columns_keyed).
  apply insert_players_spec in Hi as (C1 & P1 & (added & R1 & F1) & U1); [|done].
  rewrite R0 in R1. simpl in R1. rewrite <- R1 in F1. clear added R1.
  destruct (rename_columns_index _ _ Hr) as (IP & IN & IR & _).
  pose proof (rename_columns_rows t1) as RR. rewrite Hr in RR. simpl in RR.
  rewrite C1, C0 in IP, IN, IR.
  destruct (players_columns_keyed headers) as [N0 N1].
  rewrite N1 in IP. rewrite N0 in IN.
  split; [done|]. split; [done|]. split.
  { destruct (players_columns_PER headers) as [i_per Hper]. exists i_per.
    split; [congruence|]. by apply (players_columns_per_off_key headers). }
  unfold identities_unique in *. rewrite RR. split; [|done].
  apply U1. rewrite R0. constructor.
Qed.

Section Twice.

Variable float_of_str : string → option float.
Variable i_per : nat.

Lemma field_insert r v k :
  k ≠ i_per →
  field float_of_str (<[i_per := v]> r) k = field float_of_str r k.
Proof.
  intros Hk. unfold field, py_getitem. by rewrite list_lookup_insert_ne.
Qed.

Hypothesis Hunread : i_per ∉ (6 :: other_fields)%nat.

Lemma PER_of_record_insert r v :
  PER_of_record float_of_str (<[i_per := v]> r) = PER_of_record float_of_str r.
Proof using Hunread.
  unfold PER_of_record, extract_stats.
  rewrite !field_insert; [done|..];
    intros <-; apply Hunread; unfold other_fields;
    apply list_elem_of_In; simpl; tauto.
Qed.

Lemma PER_of_record_rated r :
  PER_of_record float_of_str (rated float_of_str i_per r)
  = PER_of_record float_of_str r.
Proof using Hunread.
  unfold rated. destruct (PER_of_record float_of_str r) eqn:E; [|done].
  by rewrite PER_of_record_insert.
Qed.

Lemma rated_rated r :
  rated float_of_str i_per (rated float_of_str i_per r)
  = rated float_of_str i_per r.
Proof using Hunread.
  unfold rated at 1. rewrite PER_of_record_rated. unfold rated.
  destruct (PER_of_record float_of_str r); [|done].
  apply list_insert_insert_eq.
Qed.

End Twice.

(** A run of [PER_calculator] over a store with the final schema, unique
    text identities and ratings that all compute. *)
Lemma PER_calculator_rated float_of_str web year fs t i_per :
  fs !! year = Some (Some t) →
  is_ok (scrape_nba_player_data (web year)) = true →
  Sqlite.column_index "player_name" (columns t) = Some 0%nat →
  Sqlite.column_index "Position" (columns t) = Some 1%nat →
  Sqlite.column_index "PER" (columns t) = Some i_per →
  (2 ≤ i_per)%nat →
  NoDup (identity <$> rows t) →
  Forall text_identity (rows t) →
  Forall (λ r, is_ok (PER_of_record float_of_str r) = true) (rows t) →
  PER_calculator float_of_str web year fs
  = (<[year := Some {| columns := columns t; primary_key := primary_key t;
                       rows := rated float_of_str i_per <$> rows t |}]> fs,
     Ok tt).
Proof.
  intros Ht Hweb Hn Hp Hr Hge ND T Hok. unfold PER_calculator.
  destruct (scrape_nba_player_data (web year)) as [[hs d]|]; [|done].
  destruct (fs !! year) as [[t'|]|] eqn:Hy; [|congruence|congruence].
  inversion Ht; subst t'.
  by rewrite (update_records_rated float_of_str i_per Hge (rows t) [] t).
Qed.

Lemma text_identity_rated float_of_str i_per r :
  (2 ≤ i_per)%nat → text_identity r → text_identity (rated float_of_str i_per r).
Proof.
  intros Hge (n & tm & H0 & H1). exists n, tm. unfold rated.
  destruct (PER_of_record float_of_str r); [|done].
  by rewrite !list_lookup_insert_ne by lia.
Qed.

(** X11.  On a store just created, if the page is scraped and every stored
    row has a rating, [PER_calculator] goes through and leaves each row with
    its own rating in the column PER, all else unchanged; the column PER is
    the last one. *)
Theorem PER_calculator_rates_every_row
    float_of_str web headers player_data year fs fs' t :
  fs !! year = None →
  create_nba_database headers player_data year fs = (fs', Ok tt) →
  fs' !! year = Some (Some t) →
  is_ok (scrape_nba_player_data (web year)) = true →
  Forall (λ r, is_ok (PER_of_record float_of_str r) = true) (rows t) →
  ∃ i_per,
    Sqlite.column_index "PER" (columns t) = Some i_per ∧
    (2 ≤ i_per)%nat ∧ length (columns t) = S i_per ∧
    PER_calculator float_of_str web year fs'
    = (<[year := Some {| columns := columns t; primary_key := primary_key t;
                         rows := rated float_of_str i_per <$> rows t |}]> fs',
       Ok tt).
Proof.
  intros Hnone H Ht Hweb Hok.
  destruct (created_store_shape _ _ _ _ _ _ Hnone H Ht)
    as (_ & Hn & Hp & _ & U & F).
  destruct (created_rows _ _ _ _ _ _ Hnone H Ht) as (Hlen & Hr & _).
  exists (2 + length (stat_headers headers))%nat. split; [done|].
  split; [lia|]. split; [by rewrite Hlen|].
  apply PER_calculator_rated; try done; [lia|].
  eapply Forall_impl; [exact F|]. intros r. apply ingested_text_identity.
Qed.

Lemma PER_calculator_rates_every_row_witness :
  ∃ i_per,
    Sqlite.column_index "PER" (columns League.created_players) = Some i_per ∧
    (2 ≤ i_per)%nat ∧ length (columns League.created_players) = S i_per ∧
    PER_calculator Decimal.float_of_str (λ _, League.page) 2024 League.created
    = (<[2024%Z := Some {| columns := columns League.created_players;
                           primary_key := primary_key League.created_players;
                           rows := rated Decimal.float_of_str i_per
                                     <$> rows League.created_players |}]>
         League.created,
       Ok tt).
Proof.
  apply (PER_calculator_rates_every_row Decimal.float_of_str (λ _, League.page)
           League.headers League.player_data 2024%Z ∅ League.created
           League.created_players).
  - apply lookup_empty.
  - vm_compute. reflexivity.
  - vm_compute. reflexivity.
  - reflexivity.
  - rated_rows.
Defined.

(** X12.  On a store just created from at least 27 statistics headers, as
    the page gives, the column PER lies past cell 28, the last that the
    rating reads (it reads cells 6, 10, 11, 13, 14, 20, 21 and 23 to 28), so
    that a second run of [PER_calculator] changes nothing. *)
Theorem PER_calculator_idempotent
    float_of_str web web' headers player_data year fs fs' t :
  fs !! year = None →
  create_nba_database headers player_data year fs = (fs', Ok tt) →
  fs' !! year = Some (Some t) →
  is_ok (scrape_nba_player_data (web year)) = true →
  is_ok (scrape_nba_player_data (web' year)) = true →
  Forall (λ r, is_ok (PER_of_record float_of_str r) = true) (rows t) →
  (27 ≤ length (stat_headers headers))%nat →
  PER_calculator float_of_str web' year
    (PER_calculator float_of_str web year fs').1
  = PER_calculator float_of_str web year fs'.
Proof.
  intros Hnone H Ht Hweb Hweb' Hok Hmany.
  destruct (created_store_shape _ _ _ _ _ _ Hnone H Ht)
    as (_ & Hn & Hp & _ & U & F).
  destruct (created_rows _ _ _ _ _ _ Hnone H Ht) as (_ & Hr & _).
  set (i_per := (2 + length (stat_headers headers))%nat) in *.
  assert (2 ≤ i_per)%nat as Hge by (unfold i_per; lia).
  assert (i_per ∉ (6 :: other_fields)%nat) as Hunread.
  { unfold other_fields. intros Hin. apply list_elem_of_In in Hin.
    simpl in Hin. unfold i_per in Hin. lia. }
  assert (Forall text_identity (rows t)) as T.
  { eapply Forall_impl; [exact F|]. intros r. apply ingested_text_identity. }
  rewrite (PER_calculator_rated float_of_str web year fs' t i_per) by done.
  simpl.
  rewrite (PER_calculator_rated float_of_str web' year _
             {| columns := columns t; primary_key := primary_key t;
                rows := rated float_of_str i_per <$> rows t |} i_per);
    simpl; try done.
  - rewrite insert_insert_eq.
    assert (rated float_of_str i_per <$> (rated float_of_str i_per <$> rows t)
            = rated float_of_str i_per <$> rows t) as ->; [|done].
    rewrite <- list_fmap_compose.
    apply list_fmap_ext. intros _ r _. simpl. by apply rated_rated.
  - by rewrite lookup_insert_eq.
  - rewrite <- list_fmap_compose.
    rewrite (list_fmap_ext (identity ∘ rated float_of_str i_per) identity (rows t));
      [done|]. intros _ r _. simpl. by apply identity_rated.
  - apply Forall_fmap. eapply Forall_impl; [exact T|]. intros r. simpl.
    by apply text_identity_rated.
  - apply Forall_fmap. eapply Forall_impl; [exact Hok|]. intros r. simpl.
    by rewrite PER_of_record_rated.
Qed.

Lemma PER_calculator_idempotent_witness :
  PER_calculator Decimal.float_of_str (λ _, Sample.page_with_bench) 2024
    (PER_calculator Decimal.float_of_str (λ _, Sample.page) 2024 Sample.stored).1
  = PER_calculator Decimal.float_of_str (λ _, Sample.page) 2024 Sample.stored.
Proof.
  apply (PER_calculator_idempotent Decimal.float_of_str (λ _, Sample.page)
           (λ _, Sample.page_with_bench) Sample.headers Sample.player_data
           2024%Z ∅ Sample.stored Sample.players).
  - apply lookup_empty.
  - vm_compute. reflexivity.
  - vm_compute. reflexivity.
  - reflexivity.
  - reflexivity.
  - rated_rows.
  - vm_compute. lia.
Defined.

(** With 26 statistics headers the column PER is cell 28, which the rating
    reads as the points: there a second run changes the ratings. *)
Example second_run_on_26_statistics :
  let once :=
    (PER_calculator Decimal.float_of_str (λ _, Sample.page) 2024
       League.short_created).1 in
  let twice :=
    (PER_calculator Decimal.float_of_str (λ _, Sample.page) 2024 once).1 in
  length (stat_headers League.short_headers) = 26%nat
  ∧ League.ratings once = Some [VReal 22.5; VReal 22.5]
  ∧ League.ratings twice = Some [VReal 45; VReal 45].
Proof. repeat split; vm_compute; reflexivity. Qed.

Lemma SFltb_rank x y :
  x ≠ S754_nan → y ≠ S754_nan →
  (SFltb x y = true ↔ lex_lt (rank x) (rank y)).
Proof.
  intros Hx Hy. unfold SFltb.
  destruct x as [sx|sx| |sx mx ex], y as [sy|sy| |sy my ey]; try done;
    simpl; try destruct sx; try destruct sy; simpl;
    try (split; [intros; try discriminate; lia|intros; try reflexivity; lia]).
  - (* both negative *)
    destruct (Z.compare_spec ex ey) as [->|Hlt|Hgt].
    + rewrite Pos.compare_cont_spec. simpl.
      destruct (Pos.compare_spec mx my) as [->|Hm|Hm]; simpl;
        (split; [intros; try discriminate; lia|intros; try reflexivity; lia]).
    + split; [intros; try discriminate; lia|intros; try reflexivity; lia].
    + split; [intros; try discriminate; lia|intros; try reflexivity; lia].
  - destruct (Z.compare_spec ex ey) as [->|Hlt|Hgt].
    + rewrite Pos.compare_cont_spec. simpl.
      destruct (Pos.compare_spec mx my) as [->|Hm|Hm]; simpl;
        (split; [intros; try discriminate; lia|intros; try reflexivity; lia]).
    + split; [intros; try discriminate; lia|intros; try reflexivity; lia].
    + split; [intros; try discriminate; lia|intros; try reflexivity; lia].
Qed.

Lemma is_number_spec f : is_number f → Prim2SF f ≠ S754_nan.
Proof.
  unfold is_number. rewrite FloatAxioms.eqb_spec. intros H E.
  rewrite E in H. done.
Qed.

Lemma float_ltb_rank x y :
  is_number x → is_number y →
  (PrimFloat.ltb x y = true ↔ lex_lt (rank (Prim2SF x)) (rank (Prim2SF y))).
Proof.
  intros Hx%is_number_spec Hy%is_number_spec.
  rewrite FloatAxioms.ltb_spec. by apply SFltb_rank.
Qed.

Lemma lex_lt_neg_trans a b c : ¬ lex_lt a b → ¬ lex_lt b c → ¬ lex_lt a c.
Proof.
  destruct a as [[a1 a2] a3], b as [[b1 b2] b3], c as [[c1 c2] c3].
  unfold lex_lt. lia.
Qed.

Lemma float_ltb_neg_trans x y z :
  is_number x → is_number y → is_number z →
  PrimFloat.ltb x y = false → PrimFloat.ltb y z = false →
  PrimFloat.ltb x z = false.
Proof.
  intros Hx Hy Hz Hxy Hyz. apply not_true_is_false. intros Hxz.
  apply (float_ltb_rank x z Hx Hz) in Hxz.
  revert Hxz. apply (lex_lt_neg_trans _ (rank (Prim2SF y))).
  - intros H. apply (float_ltb_rank x y Hx Hy) in H. congruence.
  - intros H. apply (float_ltb_rank y z Hy Hz) in H. congruence.
Qed.

Lemma float_ltb_asym x y :
  is_number x → is_number y →
  PrimFloat.ltb x y = true → PrimFloat.ltb y x = false.
Proof.
  intros Hx Hy Hxy. apply not_true_is_false. intros Hyx.
  apply (float_ltb_rank x y Hx Hy) in Hxy.
  apply (float_ltb_rank y x Hy Hx) in Hyx.
  destruct (rank (Prim2SF x)) as [[a1 a2] a3], (rank (Prim2SF y)) as [[b1 b2] b3].
  unfold lex_lt in *. lia.
Qed.

(** ** The ranking of print_top_players *)

Lemma insert_desc_sorted x : ∀ s,
  rating_number x → Forall rating_number s → StronglySorted not_below s →
  ∃ r, insert_desc x s = Ok r ∧ r ≡ₚ x :: s ∧ StronglySorted not_below r.
Proof.
  intros s Hx. induction s as [|y rest IH]; intros Hs HS.
  { exists [x]. repeat split; [done|]. repeat constructor. }
  apply Forall_cons in Hs as [Hy Hs].
  apply StronglySorted_inv in HS as [HS Hyrest].
  destruct Hx as (fx & Ex & Nx). destruct Hy as (fy & Ey & Ny).
  simpl. rewrite Ex, Ey. simpl.
  destruct (PrimFloat.ltb fx fy) eqn:Hlt.
  - destruct (IH Hs HS) as (r & -> & P & S). simpl.
    exists (y :: r). split; [done|]. split.
    { rewrite P. apply Permutation_swap. }
    constructor; [done|]. rewrite P. constructor; [|done].
    exists fy, fx. repeat split; try done. by apply float_ltb_asym.
  - exists (x :: y :: rest). split; [done|]. split; [done|].
    constructor; [by constructor|]. constructor.
    { by exists fx, fy. }
    rewrite Forall_forall in Hyrest, Hs. apply Forall_forall. intros z Hz.
    destruct (Hyrest z Hz) as (fy' & fz & Ey' & Ez & Hyz).
    destruct (Hs z Hz) as (fz' & Ez' & Nz).
    rewrite Ey in Ey'. inversion Ey'; subst fy'.
    rewrite Ez in Ez'. inversion Ez'; subst fz'.
    exists fx, fz. repeat split; try done.
    by apply (float_ltb_neg_trans fx fy fz).
Qed.

Lemma sorted_desc_sorted players :
  Forall rating_number players →
  ∃ s, sorted_desc players = Ok s ∧ s ≡ₚ players ∧ StronglySorted not_below s.
Proof.
  induction players as [|x rest IH]; intros F.
  { exists []. repeat split; [done|]. constructor. }
  apply Forall_cons in F as [Hx F].
  destruct (IH F) as (s & Hs & P & S). simpl. rewrite Hs. simpl.
  destruct (insert_desc_sorted x s Hx) as (r & Hr & Pr & Sr); [by rewrite P|done|].
  exists r. split; [done|]. split; [by rewrite Pr, P|done].
Qed.

Lemma py_eq_plain a b : plain a → plain b → (py_eq a b = true ↔ a = b).
Proof.
  destruct a, b; simpl; try done.
  intros _ _. rewrite String.eqb_eq. split; congruence.
Qed.

Lemma py_eq_false_plain a b : plain a → plain b → (py_eq a b = false ↔ a ≠ b).
Proof.
  intros Ha Hb. rewrite <- (py_eq_plain a b Ha Hb). by destruct (py_eq a b).
Qed.

Lemma dict_append_cases position entry d :
  (∃ d1 k players d2,
     d = d1 ++ (k, players) :: d2 ∧
     Forall (λ kv, py_eq kv.1 position = false) d1 ∧
     py_eq k position = true ∧
     dict_append position entry d = d1 ++ (k, players ++ [entry]) :: d2)
  ∨ (Forall (λ kv, py_eq kv.1 position = false) d ∧
     dict_append position entry d = d ++ [(position, [entry])]).
Proof.
  induction d as [|[k players] rest IH]; simpl.
  { right. by split. }
  destruct (py_eq k position) eqn:Hk.
  - left. exists [], k, players, rest. by repeat split.
  - destruct IH as [(d1 & k0 & pl & d2 & -> & F & Hk0 & ->)|[F ->]].
    + left. exists ((k, players) :: d1), k0, pl, d2. repeat split; try done.
      by constructor.
    + right. split; [by constructor|done].
Qed.

Lemma filter_all_false {A} (p : A → bool) (l : list A) :
  (∀ x, x ∈ l → p x = false) → List.filter p l = [].
Proof.
  induction l as [|a l IH]; intros H; [done|]. simpl.
  rewrite (H a) by (apply elem_of_cons; by left).
  apply IH. intros x Hx. apply H. apply elem_of_cons. by right.
Qed.

Lemma filter_app_bool {A} (p : A → bool) l1 l2 :
  List.filter p (l1 ++ l2) = List.filter p l1 ++ List.filter p l2.
Proof. apply List.filter_app. Qed.

Lemma grouped_step seen d rec :
  plain (position_of rec) →
  grouped seen d →
  grouped (seen ++ [rec]) (dict_append (position_of rec) (entry_of rec) d).
Proof.
  intros Hplain (ND & Fd & Fs).
  assert (∀ k, of_position k (seen ++ [rec])
               = of_position k seen
                 ++ (if py_eq k (position_of rec) then [entry_of rec] else [])) as Hof.
  { intros k. unfold of_position. rewrite filter_app_bool, fmap_app. simpl.
    by destruct (py_eq k (position_of rec)). }
  destruct (dict_append_cases (position_of rec) (entry_of rec) d)
    as [(d1 & k & players & d2 & -> & F1 & Hk & ->)|[F ->]].
  - (* the position has its list already *)
    apply Forall_app in Fd as [Fd1 Fd2]. apply Forall_cons in Fd2 as [(Pk & Ek & Nk) Fd2].
    simpl in *.
    apply (py_eq_plain k _ Pk Hplain) in Hk as Hkeq.
    assert (∀ kv, kv ∈ d1 ++ d2 → plain kv.1 → py_eq kv.1 (position_of rec) = false)
      as Hother.
    { intros kv Hin Hp. apply py_eq_false_plain; [done|done|].
      rewrite <- Hkeq. intros E. rewrite fmap_app, fmap_cons in ND. simpl in ND.
      apply NoDup_app in ND as (ND1 & ND12 & ND2). apply NoDup_cons in ND2 as [Hn ND2].
      apply elem_of_app in Hin as [Hin|Hin].
      - apply (ND12 kv.1); [apply list_elem_of_fmap; eauto|].
        rewrite E. apply elem_of_cons. by left.
      - apply Hn. rewrite <- E. apply list_elem_of_fmap. eauto. }
    split; [|split].
    + by rewrite fmap_app, fmap_cons in *.
    + apply Forall_app. split; [|apply Forall_cons; split].
      * rewrite Forall_forall in Fd1. apply Forall_forall. intros kv Hin.
        destruct (Fd1 kv Hin) as (Pkv & Ekv & Nkv). split; [done|]. split; [|done].
        rewrite Hof, Hother, app_nil_r; [done| |done]. apply elem_of_app. by left.
      * simpl. split; [done|]. split; [|by destruct players].
        rewrite Hof. rewrite (proj2 (py_eq_plain k _ Pk Hplain) Hkeq). by rewrite Ek.
      * rewrite Forall_forall in Fd2. apply Forall_forall. intros kv Hin.
        destruct (Fd2 kv Hin) as (Pkv & Ekv & Nkv). split; [done|]. split; [|done].
        rewrite Hof, Hother, app_nil_r; [done| |done]. apply elem_of_app. by right.
    + apply Forall_app. split.
      * rewrite fmap_app, fmap_cons in *. done.
      * apply Forall_singleton. rewrite <- Hkeq, fmap_app, fmap_cons. simpl.
        apply elem_of_app. right. apply elem_of_cons. by left.
  - (* a new position *)
    assert (position_of rec ∉ d.*1) as Hnew.
    { intros (kv & E & Hin)%list_elem_of_fmap.
      rewrite Forall_forall in F, Fd. specialize (F _ Hin).
      destruct (Fd _ Hin) as (Pkv & _).
      apply (py_eq_false_plain _ _ Pkv Hplain) in F. by apply F. }
    assert (∀ r, r ∈ seen → py_eq (position_of rec) (position_of r) = false)
      as Hfresh.
    { intros r Hr. pose proof (proj1 (Forall_forall _ _) Fs) as Fs'.
      pose proof (proj1 (Forall_forall _ _) Fd) as Fd'.
      pose proof (Fs' r Hr) as Hin.
      apply list_elem_of_fmap in Hin as (kv & E & Hkv).
      destruct (Fd' kv Hkv) as (Pkv & _). rewrite <- E in Pkv.
      apply py_eq_false_plain; [done|done|]. intros E'. apply Hnew.
      rewrite E'. by apply Fs'. }
    assert (of_position (position_of rec) seen = []) as Hnone.
    { unfold of_position. by rewrite (filter_all_false _ _ Hfresh). }
    split; [|split].
    + rewrite fmap_app. simpl. apply NoDup_app. split; [done|].
      split; [|apply NoDup_singleton].
      intros x Hx ->%list_elem_of_singleton. by apply Hnew.
    + apply Forall_app. split; [|apply Forall_singleton].
      * rewrite Forall_forall in Fd, F. apply Forall_forall. intros kv Hin.
        destruct (Fd kv Hin) as (Pkv & Ekv & Nkv). split; [done|]. split; [|done].
        by rewrite Hof, (F kv Hin), app_nil_r.
      * simpl. split; [done|]. split; [|done].
        rewrite Hof, Hnone. simpl.
        by rewrite (proj2 (py_eq_plain _ _ Hplain Hplain) eq_refl).
    + rewrite fmap_app. simpl. apply Forall_app. split.
      * eapply Forall_impl; [exact Fs|]. intros r Hr. apply elem_of_app. by left.
      * apply Forall_singleton. apply elem_of_app. right.
        apply list_elem_of_singleton. reflexivity.
Qed.

Lemma group_by_position_grouped player_records :
  Forall (λ rec, plain (position_of rec)) player_records →
  grouped player_records (group_by_position player_records).
Proof.
  unfold group_by_position.
  assert (∀ pending seen d,
            Forall (λ rec, plain (position_of rec)) pending →
            grouped seen d →
            grouped (seen ++ pending)
              (fold_left (λ d '(player_name, position, per),
                            dict_append position (player_name, per) d) pending d))
    as Hgen.
  { induction pending as [|[[n p] per] pending IH]; intros seen d F G.
    - by rewrite app_nil_r.
    - apply Forall_cons in F as [Hp F]. simpl.
      replace (seen ++ (n, p, per) :: pending) with ((seen ++ [(n, p, per)]) ++ pending)
        by (by rewrite <- app_assoc).
      apply IH; [done|]. by apply (grouped_step seen d (n, p, per)). }
  intros F. apply (Hgen player_records [] [] F).
  repeat split; constructor.
Qed.

(** The grouping loses and invents nothing, whatever the positions are. *)
Lemma dict_append_concat position entry d :
  concat (dict_append position entry d).*2 ≡ₚ entry :: concat d.*2.
Proof.
  destruct (dict_append_cases position entry d)
    as [(d1 & k & players & d2 & -> & _ & _ & ->)|[_ ->]].
  - rewrite !fmap_app, !fmap_cons, !concat_app. simpl.
    rewrite (Permutation_app_comm players [entry]). simpl.
    symmetry. apply Permutation_middle.
  - rewrite fmap_app, concat_app. simpl.
    symmetry. apply Permutation_cons_append.
Qed.

Lemma group_by_position_concat player_records :
  concat (group_by_position player_records).*2 ≡ₚ entry_of <$> player_records.
Proof.
  unfold group_by_position.
  assert (∀ pending d,
            concat (fold_left (λ d '(player_name, position, per),
                                 dict_append position (player_name, per) d)
                      pending d).*2
            ≡ₚ concat d.*2 ++ (entry_of <$> pending)) as Hgen.
  { induction pending as [|[[n p] per] pending IH]; intros d; simpl.
    - by rewrite app_nil_r.
    - rewrite IH, dict_append_concat. simpl.
      by rewrite <- Permutation_middle. }
  by rewrite Hgen.
Qed.

Lemma line_entry_of e : rating_number e → line_entry (line_of e) = e.
Proof. destruct e as [n per]. intros (f & E & _). simpl in E. by subst. Qed.

Lemma ranking_lines_Ok players :
  Forall rating_number players →
  ranking_lines players = Ok (line_of <$> players).
Proof.
  unfold ranking_lines. induction 1 as [|[n per] l (f & E & _) F IH]; [done|].
  simpl in E. subst per. simpl. rewrite IH. done.
Qed.

Lemma top_lines n players :
  Forall rating_number players →
  ∃ s lines,
    sorted_desc players = Ok s ∧ ranking_lines (take n s) = Ok lines ∧
    top_of n players lines.
Proof.
  intros F. destruct (sorted_desc_sorted players F) as (s & Hs & P & S).
  assert (Forall rating_number s) as Fs by (by rewrite P).
  exists s, (line_of <$> take n s). split; [done|].
  split; [apply ranking_lines_Ok; by apply Forall_take|].
  rewrite <- (take_drop n s) in S. apply StronglySorted_app in S as (Cross & S1 & S2).
  split; [|split].
  - by rewrite length_fmap, length_take, P.
  - eapply StronglySorted_fmap; [|exact S1].
    intros x y (f & g & Ex & Ey & Hlt). unfold line_of. by rewrite Ex, Ey.
  - exists (drop n s). split.
    + rewrite <- list_fmap_compose.
      rewrite (list_fmap_ext (line_entry ∘ line_of) id (take n s)).
      * by rewrite list_fmap_id, take_drop, P.
      * intros i e He. simpl. apply line_entry_of.
        rewrite Forall_forall in Fs. apply Fs.
        apply list_elem_of_lookup_2 in He. by apply (subseteq_take n s).
    + intros line e (x & -> & Hx)%list_elem_of_fmap He.
      destruct (Cross x e Hx He) as (f & g & Ex & Ee & Hlt).
      exists g. split; [done|]. unfold line_of. by rewrite Ex.
Qed.

Lemma mapM_result_total {A B} (f : A → result B) (P : A → B → Prop) (l : list A) :
  Forall (λ x, ∃ y, f x = Ok y ∧ P x y) l →
  ∃ k, mapM f l = Ok k ∧ Forall2 P l k.
Proof.
  induction 1 as [|x l (y & Hy & HP) F (k & Hk & IH)].
  - exists []. split; [done|constructor].
  - exists (y :: k). simpl. rewrite Hy. simpl. rewrite Hk. simpl.
    split; [done|by constructor].
Qed.

(** The report over records whose ratings are all numbers. *)
Lemma top_players_report_spec player_records :
  Forall (λ rec, rating_number (entry_of rec)) player_records →
  ∃ by_position overall,
    top_players_report player_records = Ok (by_position, overall) ∧
    Forall2 (λ g block, block.1 = g.1 ∧ top_of 10 g.2 block.2)
      (group_by_position player_records) by_position ∧
    top_of 75 (entry_of <$> player_records) overall.
Proof.
  intros F. unfold top_players_report.
  pose proof (group_by_position_concat player_records) as Pc.
  assert (Forall rating_number (concat (group_by_position player_records).*2)) as Fc.
  { rewrite Pc. by apply Forall_fmap. }
  destruct (mapM_result_total
              (λ '(position, players),
                 players_sorted ← sorted_desc players;
                 lines ← ranking_lines (take 10 players_sorted);
                 Ok (position, lines))
              (λ g block, block.1 = g.1 ∧ top_of 10 g.2 block.2)
              (group_by_position player_records)) as (by_position & -> & F2).
  { apply Forall_forall. intros [k players] Hin.
    destruct (top_lines 10 players) as (s & lines & Hs & Hl & Ht).
    { rewrite Forall_forall in Fc. apply Forall_forall. intros e He. apply Fc.
      apply list_elem_of_In, in_concat. exists players.
      split; apply list_elem_of_In; [|done].
      apply list_elem_of_fmap. by exists (k, players). }
    exists (k, lines). rewrite Hs. simpl. rewrite Hl. by simpl. }
  simpl.
  destruct (top_lines 75 (concat (group_by_position player_records).*2) Fc)
    as (s & overall & -> & Hl & Ht).
  simpl. rewrite Hl. simpl. exists by_position, overall.
  split; [done|]. split; [done|].
  destruct Ht as (L & S & rest & P & B). split; [|split; [done|]].
  - by rewrite L, Pc, length_fmap.
  - exists rest. split; [by rewrite <- Pc|done].
Qed.

(** X13.  When every eligible player has a rating that is a number,
    [print_top_players] writes nothing and its overall list is the first 75
    eligible players by descending rating: all of them if they are fewer, no
    line followed by a higher rating, and no player left out who is rated
    above a listed one. *)
Theorem print_top_players_overall year fs t player_records :
  fs !! year = Some (Some t) →
  print_top_players_records t = Ok player_records →
  Forall (λ rec, rating_number (entry_of rec)) player_records →
  ∃ by_position overall,
    print_top_players year fs = (fs, Ok (by_position, overall)) ∧
    top_of 75 (entry_of <$> player_records) overall.
Proof.
  intros Ht Hq F. unfold print_top_players.
  destruct (fs !! year) as [[t'|]|] eqn:Hy; [|congruence|congruence].
  inversion Ht; subst t'. rewrite Hq. simpl.
  destruct (top_players_report_spec player_records F)
    as (by_position & overall & -> & _ & Ho).
  by exists by_position, overall.
Qed.

Lemma print_top_players_overall_witness :
  ∃ by_position overall,
    print_top_players 2024 League.season = (League.season, Ok (by_position, overall)) ∧
    top_of 75 (entry_of <$> League.eligible) overall.
Proof.
  apply (print_top_players_overall 2024%Z League.season League.players League.eligible).
  - vm_compute. reflexivity.
  - vm_compute. reflexivity.
  - vm_compute.
    repeat (constructor; [eexists; split; reflexivity|]). constructor.
Defined.

(** X14.  Under the same condition, with positions that are text, the
    report has one block per position met among the eligible players, each
    position once, no block empty, and each block is the first 10 players
    of its position by descending rating. *)
Theorem print_top_players_by_position year fs t player_records :
  fs !! year = Some (Some t) →
  print_top_players_records t = Ok player_records →
  Forall (λ rec, rating_number (entry_of rec)) player_records →
  Forall (λ rec, plain (position_of rec)) player_records →
  ∃ by_position overall,
    print_top_players year fs = (fs, Ok (by_position, overall)) ∧
    NoDup by_position.*1 ∧
    (∀ rec, rec ∈ player_records → position_of rec ∈ by_position.*1) ∧
    Forall (λ block,
              block.2 ≠ [] ∧
              top_of 10 (of_position block.1 player_records) block.2)
      by_position.
Proof.
  intros Ht Hq F Hplain. unfold print_top_players.
  destruct (fs !! year) as [[t'|]|] eqn:Hy; [|congruence|congruence].
  inversion Ht; subst t'. rewrite Hq. simpl.
  destruct (top_players_report_spec player_records F)
    as (by_position & overall & -> & F2 & _).
  destruct (group_by_position_grouped player_records Hplain) as (ND & Fd & Fs).
  exists by_position, overall. split; [done|].
  assert (by_position.*1 = (group_by_position player_records).*1) as Hkeys.
  { clear -F2. induction F2 as [|g b gs bs [E _] _ IH]; [done|].
    rewrite !fmap_cons. by rewrite E, IH. }
  rewrite Hkeys. split; [done|]. split.
  { intros rec Hrec. rewrite Forall_forall in Fs. by apply Fs. }
  clear Hkeys ND Fs. induction F2 as [|g b gs bs [E Htop] F2 IH]; [done|].
  apply Forall_cons in Fd as [(_ & Eg & Ng) Fd].
  constructor; [|by apply IH].
  rewrite E, <- Eg. split; [|done].
  destruct Htop as (L & _). intros Hb. rewrite Hb in L. simpl in L.
  destruct g.2; [done|]. simpl in L. lia.
Qed.

Lemma print_top_players_by_position_witness :
  ∃ by_position overall,
    print_top_players 2024 League.season = (League.season, Ok (by_position, overall)) ∧
    NoDup by_position.*1 ∧
    (∀ rec, rec ∈ League.eligible → position_of rec ∈ by_position.*1) ∧
    Forall (λ block,
              block.2 ≠ [] ∧
              top_of 10 (of_position block.1 League.eligible) block.2)
      by_position.
Proof.
  apply (print_top_players_by_position 2024%Z League.season League.players
           League.eligible).
  - vm_compute. reflexivity.
  - vm_compute. reflexivity.
  - vm_compute.
    repeat (constructor; [eexists; split; reflexivity|]). constructor.
  - vm_compute. repeat constructor.
Defined.

Lemma py_lt_Ok a b c :
  py_lt a b = Ok c → (is_float a ∧ is_float b) ∨ (is_text a ∧ is_text b).
Proof.
  destruct a, b; simpl; try done; intros _; [right|left]; split; eexists; done.
Qed.

Lemma insert_desc_Ok x : ∀ s r,
  insert_desc x s = Ok r →
  r ≡ₚ x :: s ∧
  match s with
  | [] => True
  | y :: _ => (is_float x.2 ∧ is_float y.2) ∨ (is_text x.2 ∧ is_text y.2)
  end.
Proof.
  induction s as [|y rest IH]; intros r H; simpl in H.
  { by inversion H. }
  destruct (py_lt x.2 y.2) as [c|] eqn:Hlt; [|done]. simpl in H.
  split; [|by eapply py_lt_Ok].
  destruct c.
  - destruct (insert_desc x rest) as [r'|] eqn:Hr; [|done]. simpl in H.
    inversion H; subst. destruct (IH r' eq_refl) as [P _].
    rewrite P. apply Permutation_swap.
  - by inversion H.
Qed.

Lemma sorted_desc_Ok players : ∀ s,
  sorted_desc players = Ok s →
  s ≡ₚ players ∧
  (Forall (λ e, is_float e.2) players ∨ Forall (λ e, is_text e.2) players
   ∨ (length players ≤ 1)%nat).
Proof.
  induction players as [|x rest IH]; intros s H; simpl in H.
  { inversion H. split; [done|]. right; right. simpl. lia. }
  destruct (sorted_desc rest) as [s'|] eqn:Hs; [|done]. simpl in H.
  destruct (IH s' eq_refl) as [P Hom].
  destruct (insert_desc_Ok x s' s H) as [P' Hk].
  split; [by rewrite P', P|].
  destruct s' as [|y s''].
  { apply Permutation_nil_l in P. subst rest. right; right. simpl. lia. }
  assert (y ∈ rest) as Hy by (rewrite <- P; apply elem_of_cons; by left).
  destruct Hom as [Hf|[Ht|Hl]].
  - left. constructor; [|done]. rewrite Forall_forall in Hf.
    destruct Hk as [[Hx _]|[_ (sy & Ey)]]; [done|].
    destruct (Hf y Hy) as (f & Ef). congruence.
  - right; left. constructor; [|done]. rewrite Forall_forall in Ht.
    destruct Hk as [[_ (f & Ef)]|[Hx _]]; [|done].
    destruct (Ht y Hy) as (sy & Ey). congruence.
  - destruct rest as [|z [|? ?]]; simpl in Hl; [by apply elem_of_nil in Hy| |lia].
    apply list_elem_of_singleton in Hy. subst z.
    destruct Hk as [[Hx Hy]|[Hx Hy]]; [left|right; left]; by repeat constructor.
Qed.

Lemma insert_desc_float x : ∀ s,
  is_float x.2 → Forall (λ e, is_float e.2) s → ∃ r, insert_desc x s = Ok r.
Proof.
  intros s (f & Ex). induction s as [|y rest IH]; intros F; simpl; [eauto|].
  apply Forall_cons in F as [(g & Ey) F]. rewrite Ex, Ey. simpl.
  destruct (PrimFloat.ltb f g); [|eauto].
  destruct (IH F) as (r & ->). simpl. eauto.
Qed.

Lemma sorted_desc_float players :
  Forall (λ e, is_float e.2) players → ∃ s, sorted_desc players = Ok s.
Proof.
  induction 1 as [|x rest Hx F (s & Hs)]; simpl; [eauto|].
  rewrite Hs. simpl. apply insert_desc_float; [done|].
  destruct (sorted_desc_Ok rest s Hs) as [P _]. by rewrite P.
Qed.

Lemma ranking_lines_float players :
  Forall (λ e, is_float e.2) players → ∃ lines, ranking_lines players = Ok lines.
Proof.
  unfold ranking_lines. induction 1 as [|[n per] l (f & E) F (lines & IH)]; simpl; [eauto|].
  simpl in E. subst per. simpl. rewrite IH. simpl. eauto.
Qed.

Lemma ranking_lines_head x players lines :
  ranking_lines (x :: players) = Ok lines → is_float x.2.
Proof.
  unfold ranking_lines. destruct x as [n per]. simpl.
  destruct per; simpl; try done. eexists; done.
Qed.

Lemma top_lines_float n players :
  Forall (λ e, is_float e.2) players →
  ∃ s lines, sorted_desc players = Ok s ∧ ranking_lines (take n s) = Ok lines.
Proof.
  intros F. destruct (sorted_desc_float players F) as (s & Hs).
  destruct (sorted_desc_Ok players s Hs) as [P _].
  destruct (ranking_lines_float (take n s)) as (lines & Hl).
  { apply Forall_take. by rewrite P. }
  by exists s, lines.
Qed.

(** The report goes through exactly when every rating is a float. *)
Lemma top_players_report_Ok player_records :
  is_ok (top_players_report player_records) = true ↔
  Forall (λ rec, is_float rec.2) player_records.
Proof.
  pose proof (group_by_position_concat player_records) as Pc.
  unfold top_players_report. split.
  - intros H.
    destruct (mapM _ (group_by_position player_records)) as [by_position|]; [|done].
    simpl in H.
    destruct (sorted_desc (concat (group_by_position player_records).*2))
      as [s|] eqn:Hs; [|done].
    simpl in H. destruct (ranking_lines (take 75 s)) as [overall|] eqn:Hl; [|done].
    destruct (sorted_desc_Ok _ s Hs) as [P Hom].
    assert (Forall (λ e, is_float e.2) (entry_of <$> player_records)) as Hall.
    { rewrite <- Pc. destruct s as [|h s'].
      { apply Permutation_nil_l in P. rewrite <- P. constructor. }
      apply ranking_lines_head in Hl.
      assert (h ∈ concat (group_by_position player_records).*2) as Hh
        by (rewrite <- P; apply elem_of_cons; by left).
      destruct Hom as [Hf|[Ht|Hle]]; [done| |].
      - rewrite Forall_forall in Ht. destruct (Ht h Hh) as (sh & Eh).
        destruct Hl as (f & Ef). congruence.
      - destruct (concat _) as [|z [|? ?]]; simpl in Hle;
          [by apply elem_of_nil in Hh| |lia].
        apply list_elem_of_singleton in Hh. subst z. by repeat constructor. }
    apply Forall_forall. intros rec Hrec.
    rewrite Forall_forall in Hall. apply (Hall (entry_of rec)).
    apply list_elem_of_fmap. by exists rec.
  - intros F.
    assert (Forall (λ e, is_float e.2) (concat (group_by_position player_records).*2))
      as Fc.
    { rewrite Pc. apply Forall_forall.
      intros e (rec & -> & Hrec)%list_elem_of_fmap.
      rewrite Forall_forall in F. by apply F. }
    destruct (mapM_result_total
                (λ '(position, players),
                   players_sorted ← sorted_desc players;
                   lines ← ranking_lines (take 10 players_sorted);
                   Ok (position, lines))
                (λ _ _, True)
                (group_by_position player_records)) as (by_position & -> & _).
    { apply Forall_forall. intros [k players] Hin.
      destruct (top_lines_float 10 players) as (s & lines & Hs & Hl).
      { rewrite Forall_forall in Fc. apply Forall_forall. intros e He. apply Fc.
        apply list_elem_of_In, in_concat. exists players.
        split; apply list_elem_of_In; [|done].
        apply list_elem_of_fmap. by exists (k, players). }
      exists (k, lines). rewrite Hs. simpl. rewrite Hl. by simpl. }
    simpl. destruct (top_lines_float 75 _ Fc) as (s & overall & -> & Hl).
    simpl. by rewrite Hl.
Qed.

(** X15.  Over a file with a players table that answers the query,
    [print_top_players] runs to its end exactly when the rating of every
    eligible player is a float: one [NULL] rating, which is what a NaN is
    stored as, stops it. *)
Theorem print_top_players_succeeds_iff year fs t player_records :
  fs !! year = Some (Some t) →
  print_top_players_records t = Ok player_records →
  (is_ok (print_top_players year fs).2 = true ↔
   Forall (λ rec, ∃ f, rec.2 = VReal f) player_records).
Proof.
  intros Ht Hq. unfold print_top_players.
  destruct (fs !! year) as [[t'|]|] eqn:Hy; [|congruence|congruence].
  inversion Ht; subst t'. rewrite Hq. simpl.
  apply top_players_report_Ok.
Qed.

Lemma print_top_players_succeeds_iff_witness :
  is_ok (print_top_players 2024 League.season).2 = true ↔
  Forall (λ rec, ∃ f, rec.2 = VReal f) League.eligible.
Proof.
  apply (print_top_players_succeeds_iff 2024%Z League.season League.players
           League.eligible).
  - vm_compute. reflexivity.
  - vm_compute. reflexivity.
Defined.



(** ** The ranking by team *)

Lemma same_text a b : is_text a → is_text b → (Select.same a b = true ↔ a = b).
Proof.
  intros [s ->] [s' ->]. simpl. rewrite String.eqb_eq. split; congruence.
Qed.

Lemma distinct_values_subset vals v :
  v ∈ Select.distinct_values vals → v ∈ vals.
Proof.
  revert v. induction vals as [|w rest IH]; intros v; simpl; [done|].
  intros [->|H]%elem_of_cons; [by left|]. right. apply IH.
  apply list_elem_of_In in H. apply filter_In in H as [H _].
  by apply list_elem_of_In.
Qed.

Lemma distinct_values_text vals :
  Forall is_text vals →
  NoDup (Select.distinct_values vals) ∧
  ∀ v, v ∈ vals → v ∈ Select.distinct_values vals.
Proof.
  induction 1 as [|w rest Hw F [ND IH]]; simpl.
  { split; [constructor|done]. }
  split.
  - constructor; [|by apply NoDup_ListNoDup, List.NoDup_filter, NoDup_ListNoDup].
    intros H. apply list_elem_of_In, filter_In in H as [_ H].
    assert (Select.same w w = true) as E by (by apply same_text).
    by rewrite E in H.
  - intros v [->|Hv]%elem_of_cons; [by left|].
    destruct (Select.same w v) eqn:E.
    + apply same_text in E; [subst; by left|done|].
      rewrite Forall_forall in F. by apply F.
    + right. apply list_elem_of_In, filter_In. split.
      * apply list_elem_of_In. by apply IH.
      * by rewrite E.
Qed.

Section Ordered.

Variable key : list value → value.

Local Abbreviation not_above := (λ a b, Select.lt (key a) (key b) = false).

Lemma lt_ratings a b c :
  is_rating a → is_rating b → is_rating c →
  Select.lt a b = false → Select.lt b c = false → Select.lt a c = false.
Proof.
  intros (x & -> & Hx) (y & -> & Hy) (z & -> & Hz). simpl.
  by apply float_ltb_neg_trans.
Qed.

Lemma lt_ratings_asym a b :
  is_rating a → is_rating b → Select.lt a b = true → Select.lt b a = false.
Proof.
  intros (x & -> & Hx) (y & -> & Hy). simpl. by apply float_ltb_asym.
Qed.

Lemma select_insert_desc r : ∀ s,
  is_rating (key r) → Forall (λ r', is_rating (key r')) s →
  StronglySorted not_above s →
  Select.insert_desc key r s ≡ₚ r :: s ∧
  StronglySorted not_above (Select.insert_desc key r s).
Proof.
  intros s Hr. induction s as [|y rest IH]; intros Hs HS.
  { split; [done|]. repeat constructor. }
  apply Forall_cons in Hs as [Hy Hs].
  apply StronglySorted_inv in HS as [HS Hyrest].
  simpl. destruct (Select.lt (key r) (key y)) eqn:Hlt.
  - destruct (IH Hs HS) as [P S]. split.
    { rewrite P. apply Permutation_swap. }
    constructor; [done|]. rewrite P. constructor; [|done].
    by apply lt_ratings_asym.
  - split; [done|]. constructor; [by constructor|]. constructor; [done|].
    rewrite Forall_forall in Hyrest, Hs. apply Forall_forall. intros z Hz.
    apply (lt_ratings _ (key y)); auto.
Qed.

Lemma select_order_by_desc rs :
  Forall (λ r, is_rating (key r)) rs →
  Select.order_by_desc key rs ≡ₚ rs ∧
  StronglySorted not_above (Select.order_by_desc key rs).
Proof.
  induction rs as [|r rest IH]; intros F; simpl.
  { split; [done|constructor]. }
  apply Forall_cons in F as [Hr F]. destruct (IH F) as [P S].
  destruct (select_insert_desc r (Select.order_by_desc key rest) Hr) as [P' S'];
    [by rewrite P|done|].
  split; [by rewrite P', P|done].
Qed.

Lemma select_top n rs :
  Forall (λ r, is_rating (key r)) rs →
  top_rows n key rs (take n (Select.order_by_desc key rs)).
Proof.
  intros F. destruct (select_order_by_desc rs F) as [P S].
  rewrite <- (take_drop n (Select.order_by_desc key rs)) in S.
  apply StronglySorted_app in S as (Cross & S1 & S2).
  split; [by rewrite length_take, P|]. split; [done|].
  exists (drop n (Select.order_by_desc key rs)).
  split; [by rewrite take_drop|]. intros a b Ha Hb. by apply Cross.
Qed.

End Ordered.

Lemma team_lines_Ok i_name i_per i_g i_gs rs :
  Forall (λ r, is_rating (Sqlite.item r i_per)) rs →
  team_lines ((λ r, (Sqlite.item r i_name, Sqlite.item r i_per,
                     Sqlite.item r i_g, Sqlite.item r i_gs)) <$> rs)
  = Ok (team_line i_name i_per i_g i_gs <$> rs).
Proof.
  unfold team_lines. induction 1 as [|r l (f & E & _) F IH]; [done|].
  assert (team_line i_name i_per i_g i_gs r
          = (Sqlite.item r i_name, f, Sqlite.item r i_g, Sqlite.item r i_gs)) as Hline
    by (unfold team_line; by rewrite E).
  cbn [fmap list_fmap mapM]. rewrite E, Hline. simpl. by rewrite IH.
Qed.

(** X17.  Over a players table that has the five columns of the queries,
    teams that are text and ratings that are numbers,
    [print_top_players_by_team] writes nothing and prints one block per
    team met in the table, each team once and no block empty; the lines of
    a block are the first 5 rows of that team by descending rating, with
    their games played and started, whatever the number of games. *)
Theorem print_top_players_by_team_blocks
    year fs t i_name i_per i_g i_gs i_tm :
  fs !! year = Some (Some t) →
  Sqlite.column_index "player_name" (columns t) = Some i_name →
  Sqlite.column_index "PER" (columns t) = Some i_per →
  Sqlite.column_index "G" (columns t) = Some i_g →
  Sqlite.column_index "GS" (columns t) = Some i_gs →
  Sqlite.column_index "Tm" (columns t) = Some i_tm →
  Forall (λ r, is_text (Sqlite.item r i_tm) ∧ is_rating (Sqlite.item r i_per))
    (rows t) →
  ∃ report,
    print_top_players_by_team year fs = (fs, Ok report) ∧
    NoDup report.*1 ∧
    (∀ r, r ∈ rows t → Sqlite.item r i_tm ∈ report.*1) ∧
    Forall (λ block,
              ∃ chosen,
                block.2 = team_line i_name i_per i_g i_gs <$> chosen ∧
                chosen ≠ [] ∧
                top_rows 5 (λ r, Sqlite.item r i_per)
                  (List.filter (λ r, Sqlite.eq_value (Sqlite.item r i_tm) block.1)
                     (rows t))
                  chosen)
      report.
Proof.
  intros Ht Hn Hp Hg Hgs Htm F. unfold print_top_players_by_team.
  destruct (fs !! year) as [[t'|]|] eqn:Hy; [|congruence|congruence].
  inversion Ht; subst t'. clear Ht.
  unfold Select.distinct, Sqlite.resolve. rewrite Htm. simpl.
  set (teams := Select.distinct_values ((λ r, Sqlite.item r i_tm) <$> rows t)).
  assert (Forall is_text ((λ r, Sqlite.item r i_tm) <$> rows t)) as Ftext.
  { apply Forall_fmap. eapply Forall_impl; [exact F|]. by intros r [? _]. }
  destruct (distinct_values_text _ Ftext) as [ND Hall]. fold teams in ND, Hall.
  set (P := λ (team : value) (block : value * list (value * float * value * value)),
              block.1 = team ∧
              ∃ chosen,
                block.2 = team_line i_name i_per i_g i_gs <$> chosen ∧
                chosen ≠ [] ∧
                top_rows 5 (λ r, Sqlite.item r i_per)
                  (List.filter (λ r, Sqlite.eq_value (Sqlite.item r i_tm) team)
                     (rows t))
                  chosen).
  destruct (mapM_result_total
              (λ team,
                 players ← top_of_team team t;
                 lines ← team_lines players;
                 Ok (team, lines))
              P teams) as (report & -> & F2).
  { apply Forall_forall. intros team Hteam.
    unfold top_of_team, Sqlite.resolve. rewrite Hn, Hp, Hg, Hgs, Htm. simpl.
    set (matching := List.filter
                       (λ r, Sqlite.eq_value (Sqlite.item r i_tm) team) (rows t)).
    assert (Forall (λ r, is_rating (Sqlite.item r i_per)) matching) as Fm.
    { apply Forall_forall. intros r Hr.
      apply list_elem_of_In, filter_In in Hr as [Hr _].
      rewrite Forall_forall in F. apply F. by apply list_elem_of_In. }
    pose proof (select_top (λ r, Sqlite.item r i_per) 5 matching Fm) as Top.
    set (chosen := take 5 (Select.order_by_desc (λ r, Sqlite.item r i_per) matching))
      in *.
    rewrite (team_lines_Ok i_name i_per i_g i_gs chosen).
    2:{ destruct Top as (_ & _ & rest & Pm & _).
        assert (Forall (λ r, is_rating (Sqlite.item r i_per)) (chosen ++ rest)) as Fc
          by (by rewrite <- Pm).
        by apply Forall_app in Fc as [Fc _]. }
    simpl. eexists. split; [done|]. split; [done|]. exists chosen.
    split; [done|]. split; [|done].
    apply distinct_values_subset in Hteam.
    apply list_elem_of_fmap in Hteam as (r & -> & Hr).
    assert (r ∈ matching) as Hin.
    { apply list_elem_of_In, filter_In. split; [by apply list_elem_of_In|].
      rewrite Forall_forall in F. destruct (F r Hr) as [[s Es] _].
      rewrite Es. simpl. apply String.eqb_refl. }
    destruct Top as (L & _). intros E. rewrite E in L. simpl in L.
    destruct matching; [by apply elem_of_nil in Hin|]. simpl in L. lia. }
  exists report. split; [done|].
  assert (report.*1 = teams) as E1.
  { clear -F2. induction F2 as [|team block ts bs [E _] _ IH]; [done|].
    rewrite fmap_cons, IH. by rewrite E. }
  rewrite E1. split; [done|]. split.
  - intros r Hr. apply Hall. apply list_elem_of_fmap. by exists r.
  - clear -F2. induction F2 as [|team block ts bs [E H] _ IH]; constructor; [|done].
    by rewrite E.
Qed.

Lemma print_top_players_by_team_blocks_witness :
  ∃ report,
    print_top_players_by_team 2024 League.season = (League.season, Ok report) ∧
    NoDup report.*1 ∧
    (∀ r, r ∈ rows League.players → Sqlite.item r 3 ∈ report.*1) ∧
    Forall (λ block,
              ∃ chosen,
                block.2 = team_line 0 29 4 5 <$> chosen ∧
                chosen ≠ [] ∧
                top_rows 5 (λ r, Sqlite.item r 29)
                  (List.filter (λ r, Sqlite.eq_value (Sqlite.item r 3) block.1)
                     (rows League.players))
                  chosen)
      report.
Proof.
  apply (print_top_players_by_team_blocks 2024%Z League.season League.players
           0 29 4 5 3).
  - vm_compute. reflexivity.
  - vm_compute. reflexivity.
  - vm_compute. reflexivity.
  - vm_compute. reflexivity.
  - vm_compute. reflexivity.
  - vm_compute. reflexivity.
  - vm_compute.
    repeat (constructor;
            [split; [eexists; reflexivity|eexists; split; reflexivity]|]).
    constructor.
Defined.
